(** * Spearfishing conditions notifier: scoring and aggregation pipeline

    A shallow embedding of [spearfishing_gui.py]: the three rating
    functions ([compute_image_rating], [compute_metservice_rating],
    [compute_openmeteo_rating]) and the message composition of
    [daily_task], over a model of the Python values that [json.loads]
    produces, with Python's exceptions made explicit. *)

From Stdlib Require Import ZArith QArith Lia Bool String Ascii List.
From Stdlib Require Import Floats.SpecFloat.
From stdpp Require Import base option gmap strings list pretty.

Set Warnings "-register-all".
Local Open Scope Z_scope.

(** ** Python values *)

(** The values [resp.json()] can return.  [VNone] is both JSON [null]
    and the absence marker of [fetch_json].  A [float] is a binary64
    number, kept as the sign, mantissa and exponent of [spec_float].
    A [str] is held as its text bytes; every keyword the program looks
    for is plain ASCII. *)
Inductive value : Type :=
  | VNone
  | VBool (b : bool)
  | VInt (n : Z)
  | VFloat (f : spec_float)
  | VStr (s : string)
  | VList (l : list value)
  | VDict (d : gmap string value).

(** Subscripts used by the program: a string key or an integer index. *)
Inductive index : Type :=
  | IKey (k : string)
  | IPos (i : Z).

(** Operations that can fail with a [TypeError]. *)
Inductive operation : Type :=
  | OpSubscript (i : index)
  | OpGreater
  | OpContains
  | OpJoin.

(** The exceptions the modelled code can raise, each with the operand
    CPython builds its message from. *)
Inductive exn : Type :=
  | KeyError (i : index)
  | IndexError (v : value)
  | TypeError (o : operation) (v : value)
  | AttributeError (v : value) (attr : string)
  | ZeroDivisionError
  | ValueError (f : spec_float)
  | OverflowError (f : spec_float)
  | ImageError.

(** A computation either returns or raises. *)
Inductive result (A : Type) : Type :=
  | Ok (a : A)
  | Raise (e : exn).
Arguments Ok {A} a.
Arguments Raise {A} e.

#[global] Instance result_ret : MRet result := @Ok.
#[global] Instance result_bind : MBind result := λ A B k m,
  match m with
  | Ok a => k a
  | Raise e => Raise e
  end.

(** ** Numbers and comparisons *)

(** binary64 *)
Definition prec : Z := 53.
Definition emax : Z := 1024.

(** The float literals of the source, as mantissa and exponent. *)
Definition float_1_0 : spec_float := S754_finite false 4503599627370496 (-52).
Definition float_7_7 : spec_float := S754_finite false 8669429282688205 (-50).

Inductive number : Type :=
  | NInt (n : Z)
  | NFloat (f : spec_float).

(** The numeric view of a value; [bool] is a subclass of [int]. *)
Definition as_number (v : value) : option number :=
  match v with
  | VBool b => Some (NInt (if b then 1 else 0))
  | VInt n => Some (NInt n)
  | VFloat f => Some (NFloat f)
  | _ => None
  end.

(** Python compares an [int] with a [float] by their exact values. *)
Definition Zcompare_float (n : Z) (f : spec_float) : option comparison :=
  match f with
  | S754_nan => None
  | S754_infinity s => Some (if s then Gt else Lt)
  | S754_zero _ => Some (n ?= 0)
  | S754_finite s m e =>
      let sm := cond_Zopp s (Zpos m) in
      Some (if 0 <=? e then n ?= sm * 2 ^ e else n * 2 ^ (- e) ?= sm)
  end.

Definition num_gt (a b : number) : bool :=
  match a, b with
  | NInt x, NInt y => y <? x
  | NFloat x, NFloat y => SFltb y x
  | NInt x, NFloat y =>
      match Zcompare_float x y with Some Gt => true | _ => false end
  | NFloat x, NInt y =>
      match Zcompare_float y x with Some Lt => true | _ => false end
  end.

(** [v > c] for a numeric constant [c]: any operand that is not a
    number raises [TypeError]. *)
Definition py_gt (v : value) (c : number) : result bool :=
  match as_number v with
  | Some a => Ok (num_gt a c)
  | None => Raise (TypeError OpGreater v)
  end.

(** [a / b] on two [int]s: the binary64 number nearest to the exact
    quotient (ties to even), with the sign of a zero quotient taken
    from the operands; a quotient too large for a float is an
    [OverflowError]. *)
Definition py_truediv (a b : Z) : result spec_float :=
  if b =? 0 then Raise ZeroDivisionError
  else if a =? 0 then Ok (S754_zero (b <? 0))
  else
    let q := SFdiv prec emax
               (S754_finite (a <? 0) (Z.to_pos (Z.abs a)) 0)
               (S754_finite (b <? 0) (Z.to_pos (Z.abs b)) 0) in
    match q with
    | S754_infinity _ => Raise (OverflowError q)
    | _ => Ok q
    end.

(** [int(f)]: truncation toward zero. *)
Definition py_int (f : spec_float) : result Z :=
  match f with
  | S754_nan => Raise (ValueError f)
  | S754_infinity _ => Raise (OverflowError f)
  | S754_zero _ => Ok 0
  | S754_finite s m e =>
      Ok (cond_Zopp s (if 0 <=? e then Zpos m * 2 ^ e else Zpos m / 2 ^ (- e)))
  end.

(** ** Strings *)

Definition ascii_lower (c : ascii) : ascii :=
  let n := N_of_ascii c in
  if ((65 <=? n) && (n <=? 90))%N then ascii_of_N (n + 32) else c.

(** [s.lower()]: the ASCII capitals are mapped to their small letters
    and every other byte is kept, which decides the same keyword tests
    as the Unicode lowering, the keywords being ASCII. *)
Fixpoint str_lower (s : string) : string :=
  match s with
  | EmptyString => EmptyString
  | String c s' => String (ascii_lower c) (str_lower s')
  end.

(** [k in s] on two strings: [k] occurs as a substring of [s]. *)
Fixpoint str_contains (k s : string) : bool :=
  String.prefix k s ||
  match s with
  | EmptyString => false
  | String _ s' => str_contains k s'
  end.

(** [any(k in text for k in keys)] *)
Definition any_in (keys : list string) (text : string) : bool :=
  existsb (fun k => str_contains k text) keys.

(** ** Truthiness, membership, subscripts and methods *)

(** [bool(v)], as tested by [not v] and [if v]. *)
Definition truthy (v : value) : bool :=
  match v with
  | VNone => false
  | VBool b => b
  | VInt n => negb (n =? 0)
  | VFloat (S754_zero _) => false
  | VFloat _ => true
  | VStr s => negb (String.eqb s "")
  | VList l => negb (Nat.eqb (length l) 0)
  | VDict d => negb (bool_decide (d = ∅))
  end.

(** [k in v] for a string [k]: key membership on a dict, element
    equality on a list, substring on a string, [TypeError] otherwise. *)
Definition py_contains (k : string) (v : value) : result bool :=
  match v with
  | VDict d => Ok (bool_decide (is_Some (d !! k)))
  | VList l =>
      Ok (existsb (fun x => match x with
                            | VStr s => String.eqb s k
                            | _ => false
                            end) l)
  | VStr s => Ok (str_contains k s)
  | _ => Raise (TypeError OpContains v)
  end.

(** [l[i]] on a sequence of length [len], negative indices counting
    from the end; [None] when out of range. *)
Definition seq_position (len : nat) (i : Z) : option nat :=
  let j := if i <? 0 then i + Z.of_nat len else i in
  if (0 <=? j) && (j <? Z.of_nat len) then Some (Z.to_nat j) else None.

(** [v[i]] *)
Definition py_getitem (v : value) (i : index) : result value :=
  match v, i with
  | VDict d, IKey k =>
      match d !! k with
      | Some x => Ok x
      | None => Raise (KeyError i)
      end
  | VDict _, IPos _ => Raise (KeyError i)
  | VList l, IPos n =>
      match seq_position (length l) n ≫= (l !!.) with
      | Some x => Ok x
      | None => Raise (IndexError v)
      end
  | VStr s, IPos n =>
      match seq_position (String.length s) n with
      | Some j => Ok (VStr (String.substring j 1 s))
      | None => Raise (IndexError v)
      end
  | _, _ => Raise (TypeError (OpSubscript i) v)
  end.

(** [v.get(k, default)]: only a dict has the method. *)
Definition py_get (v : value) (k : string) (default : value) : result value :=
  match v with
  | VDict d => Ok (from_option id default (d !! k))
  | _ => Raise (AttributeError v "get")
  end.

(** [v.lower()]: only a string has the method. *)
Definition py_lower (v : value) : result string :=
  match v with
  | VStr s => Ok (str_lower s)
  | _ => Raise (AttributeError v "lower")
  end.

(** [sep.join(items)]: every item must be a string. *)
Fixpoint py_join (sep : string) (items : list value) : result string :=
  match items with
  | [] => Ok ""
  | [VStr s] => Ok s
  | VStr s :: rest => r ← py_join sep rest; Ok (s +:+ sep +:+ r)
  | v :: _ => Raise (TypeError OpJoin v)
  end.

Definition newline : string := String "010"%char EmptyString.

(** [sum(l)] *)
Definition py_sum (l : list Z) : Z := foldr Z.add 0 l.

(** ** The interpreter and the imaging library *)

(** What the program takes from outside its own source: how CPython
    prints a float, a container and an exception, and how Pillow turns
    image bytes into the pixel list of the grayscale (mode L) image.
    A grayscale pixel is an 8-bit intensity. *)
Class Platform : Type := {
  float_repr : spec_float → string;
  container_repr : value → string;
  exc_message : exn → string;
  gray_pixels : list Byte.byte → result (list Z);
  gray_pixels_range : ∀ data px,
    gray_pixels data = Ok px → Forall (λ p, 0 ≤ p ≤ 255) px
}.

Section Pipeline.
Context `{Platform}.

(** [f"{v}"] *)
Definition py_format (v : value) : string :=
  match v with
  | VNone => "None"
  | VBool true => "True"
  | VBool false => "False"
  | VInt n => pretty n
  | VFloat f => float_repr f
  | VStr s => s
  | VList _ | VDict _ => container_repr v
  end.

(** ** Image rating *)

(** The body of the [try] of [compute_image_rating]. *)
Definition image_rating_try (data : list Byte.byte) : result Z :=
  pixels ← gray_pixels data;
  avg ← py_truediv (py_sum pixels) (Z.of_nat (length pixels));
  if num_gt (NFloat avg) (NInt 150) then Ok 90
  else if num_gt (NFloat avg) (NInt 80) then Ok 70
  else Ok 40.

Definition compute_image_rating (data : option (list Byte.byte)) : Z :=
  match data with
  | None | Some [] => 0
  | Some bytes =>
      match image_rating_try bytes with
      | Ok r => r
      | Raise _ => 0
      end
  end.

(** ** Forecast-text rating *)

Definition compute_metservice_rating (forecast : value)
  : result (Z * list value) :=
  no_data ← (if negb (truthy forecast) then Ok true
             else has_days ← py_contains "days" forecast; Ok (negb has_days));
  if no_data : bool then Ok (0, [VStr "No MetService data"])
  else
    days ← py_getitem forecast (IKey "days");
    day ← py_getitem days (IPos 0);
    word ← py_get day "forecastWord" (VStr "");
    text ← py_lower word;
    let rating := 60 in
    let rating :=
      if any_in ["rain"; "shower"] text then 30
      else if any_in ["fine"; "clear"; "sunny"] text then 90
      else if str_contains "cloud" text then 60
      else rating in
    if truthy (VStr text) then
      days ← py_getitem forecast (IKey "days");
      day ← py_getitem days (IPos 0);
      note ← py_get day "forecast" (VStr "");
      Ok (rating, [note])
    else Ok (rating, []).

(** ** Marine/weather rating *)

(** The two locals the [try] block of [compute_openmeteo_rating]
    updates; they keep their value when the block raises. *)
Record scoring : Type := { rating : Z; reasons : list value }.

(** A statement sequence over the locals: the locals afterwards,
    together with the value or the exception. *)
Definition block (A : Type) : Type := scoring → scoring * result A.

#[global] Instance block_ret : MRet block := λ A a s, (s, Ok a).
#[global] Instance block_bind : MBind block := λ A B k m s,
  match m s with
  | (s', Ok a) => k a s'
  | (s', Raise e) => (s', Raise e)
  end.

(** An expression: may raise, leaves the locals alone. *)
Definition eval {A} (r : result A) : block A := λ s, (s, r).

(** [rating -= amount; reasons.append(reason)] *)
Definition penalise (amount : Z) (reason : string) : block unit := λ s,
  ({| rating := rating s - amount; reasons := reasons s ++ [VStr reason] |},
   Ok ()).

Definition when (b : bool) (m : block unit) : block unit :=
  if b then m else mret ().

(** [marine["daily"]["wave_height_max"][0]] *)
Definition first_wave_height (marine : value) : result value :=
  daily ← py_getitem marine (IKey "daily");
  heights ← py_getitem daily (IKey "wave_height_max");
  py_getitem heights (IPos 0).

(** [weather["hourly"]["wind_speed_10m"][0]] *)
Definition first_wind_speed (weather : value) : result value :=
  hourly ← py_getitem weather (IKey "hourly");
  speeds ← py_getitem hourly (IKey "wind_speed_10m");
  py_getitem speeds (IPos 0).

(** [weather["hourly"]["precipitation_probability"][0]] *)
Definition first_precipitation (weather : value) : result value :=
  hourly ← py_getitem weather (IKey "hourly");
  probabilities ← py_getitem hourly (IKey "precipitation_probability");
  py_getitem probabilities (IPos 0).

Definition openmeteo_try (marine weather : value) : block unit :=
  wave_height ← eval (first_wave_height marine);
  high ← eval (py_gt wave_height (NFloat float_1_0));
  when high (penalise 40 ("Swell " +:+ py_format wave_height +:+ " m"));;
  wind_speed ← eval (first_wind_speed weather);
  windy ← eval (py_gt wind_speed (NFloat float_7_7));
  when windy (penalise 30 ("Wind " +:+ py_format wind_speed +:+ " m/s"));;
  precip ← eval (first_precipitation weather);
  wet ← eval (py_gt precip (NInt 50));
  when wet (penalise 30 "Chance of rain").

Definition compute_openmeteo_rating (marine weather : value)
  : Z * list value :=
  let start := {| rating := 100; reasons := [] |} in
  let '(s, outcome) := openmeteo_try marine weather start in
  let s :=
    match outcome with
    | Ok _ => s
    | Raise exc =>
        {| rating := 0;
           reasons := reasons s ++
             [VStr ("Failed to parse data: " +:+ exc_message exc)] |}
    end in
  (Z.max 0 (rating s), reasons s).

(** ** Aggregator *)

(** [int(sum(all_ratings) / len(all_ratings))] *)
Definition overall_rating (all_ratings : list Z) : result Z :=
  avg_rating ← py_truediv (py_sum all_ratings) (Z.of_nat (length all_ratings));
  py_int avg_rating.

(** [daily_task] on the four payloads its fetches returned: the subject
    and the body it hands to [send_email], or the exception that
    escapes it. *)
Definition daily_task (marine weather forecast : value)
    (image_data : option (list Byte.byte)) : result (string * string) :=
  let '(open_rating, open_reasons) := compute_openmeteo_rating marine weather in
  '(met_rating, met_reasons) ← compute_metservice_rating forecast;
  let message_lines :=
    [VStr ("Open-Meteo rating: " +:+ pretty open_rating);
     VStr ("MetService rating: " +:+ pretty met_rating)] in
  let cam_rating := compute_image_rating image_data in
  let message_lines :=
    message_lines ++ [VStr ("CawthronEye rating: " +:+ pretty cam_rating)] in
  let all_ratings := [open_rating; met_rating; cam_rating] in
  overall ← overall_rating all_ratings;
  let message_lines :=
    message_lines ++ [VStr ("Overall rating: " +:+ pretty overall)] in
  let reasons := open_reasons ++ met_reasons in
  message_lines ←
    (if truthy (VList reasons) then
       listing ← py_join newline (VStr "Reasons:" :: reasons);
       Ok (message_lines ++ [VStr listing])
     else Ok message_lines);
  message ← py_join newline message_lines;
  Ok ("Spearfishing update", message).

End Pipeline.

(** ** A platform to run the model on

    Floats and containers print as a fixed tag, an exception prints as
    its class name, and the image bytes are taken as a raw 8-bit
    bitmap, one byte per pixel. *)
Definition byte_intensity (b : Byte.byte) : Z := Z.of_N (Byte.to_N b).

Definition exception_class (e : exn) : string :=
  match e with
  | KeyError _ => "KeyError"
  | IndexError _ => "IndexError"
  | TypeError _ _ => "TypeError"
  | AttributeError _ _ => "AttributeError"
  | ZeroDivisionError => "ZeroDivisionError"
  | ValueError _ => "ValueError"
  | OverflowError _ => "OverflowError"
  | ImageError => "UnidentifiedImageError"
  end.

Definition bitmap_platform : Platform.
Proof.
  refine {| float_repr := λ _, "<float>";
            container_repr := λ _, "<container>";
            exc_message := exception_class;
            gray_pixels := λ data, Ok (byte_intensity <$> data) |}.
  intros data px [= <-]. apply Forall_fmap, Forall_true. intros b. simpl.
  unfold byte_intensity. pose proof (Byte.to_N_bounded b). lia.
Defined.

(** JSON payloads of the shape the program expects. *)
Definition marine_payload (wave_height : value) : value :=
  VDict {[ "daily" := VDict {[ "wave_height_max" := VList [wave_height] ]} ]}.

Definition weather_payload (wind_speed precip : value) : value :=
  VDict {[ "hourly" :=
    VDict (<[ "wind_speed_10m" := VList [wind_speed] ]>
           {[ "precipitation_probability" := VList [precip] ]}) ]}.

Definition forecast_payload (day : gmap string value) : value :=
  VDict {[ "days" := VList [VDict day] ]}.

(** ** Notions the statements use *)

(** *** Reading the three marine/weather fields

    A field parses when its subscript chain and its comparison both
    return; the pair is the field and whether it is over its limit. *)
Section Fields.
Context `{Platform}.

Definition wave_check (marine : value) : result (value * bool) :=
  h ← first_wave_height marine; high ← py_gt h (NFloat float_1_0); Ok (h, high).

Definition wind_check (weather : value) : result (value * bool) :=
  w ← first_wind_speed weather; windy ← py_gt w (NFloat float_7_7); Ok (w, windy).

Definition precip_check (weather : value) : result (value * bool) :=
  p ← first_precipitation weather; wet ← py_gt p (NInt 50); Ok (p, wet).

Definition raises {A} (r : result A) : Prop := ∃ e, r = Raise e.

(** Some required field is missing or of the wrong shape. *)
Definition parse_failure (marine weather : value) : Prop :=
  raises (wave_check marine) ∨ raises (wind_check weather)
  ∨ raises (precip_check weather).

Definition swell_reason (h : value) (high : bool) : list value :=
  if high then [VStr ("Swell " +:+ py_format h +:+ " m")] else [].

Definition wind_reason (w : value) (windy : bool) : list value :=
  if windy then [VStr ("Wind " +:+ py_format w +:+ " m/s")] else [].

Definition rain_reason (wet : bool) : list value :=
  if wet then [VStr "Chance of rain"] else [].

Definition failure_reason (e : exn) : value :=
  VStr ("Failed to parse data: " +:+ exc_message e).

Definition penalty (amount : Z) (hit : bool) : Z := if hit then amount else 0.

(** The outcome of [compute_openmeteo_rating], by the first field that
    fails to parse. *)
Definition openmeteo_outcome (marine weather : value) : Z * list value :=
  match wave_check marine with
  | Raise e => (0, [failure_reason e])
  | Ok (h, high) =>
      match wind_check weather with
      | Raise e => (0, swell_reason h high ++ [failure_reason e])
      | Ok (w, windy) =>
          match precip_check weather with
          | Raise e =>
              (0, swell_reason h high ++ wind_reason w windy
                    ++ [failure_reason e])
          | Ok (p, wet) =>
              (100 - penalty 40 high - penalty 30 windy - penalty 30 wet,
               swell_reason h high ++ wind_reason w windy ++ rain_reason wet)
          end
      end
  end.

End Fields.

(** The payload is a dict whose ["days"] is a list that starts with the
    dict [day]. *)
Definition first_day (forecast : value) (day : gmap string value) : Prop :=
  ∃ d rest, forecast = VDict d ∧ d !! "days" = Some (VList (VDict day :: rest)).

(** The keyword table of the forecast word, first match wins. *)
Definition keyword_rating (text : string) : Z :=
  if any_in ["rain"; "shower"] text then 30
  else if any_in ["fine"; "clear"; "sunny"] text then 90
  else 60.

(** The overall rating of three ratings that add up to [s]. *)
Definition mean_is_truncated (s : Z) : bool :=
  match avg ← py_truediv s 3; py_int avg with
  | Ok q => q =? s `quot` 3
  | Raise _ => false
  end.

(** The lines that follow the four rating lines of the message. *)
Definition reasons_block (reasons : list string) : list string :=
  match reasons with
  | [] => []
  | _ => "Reasons:" :: reasons
  end.

(** The exact arithmetic mean of a non-empty pixel list. *)
Definition mean_intensity (pixels : list Z) : Q :=
  py_sum pixels # Pos.of_nat (length pixels).

(** The forecast payload gives the no-data rating: it is falsy, or it
    holds no ["days"]. *)
Definition no_forecast_data (forecast : value) : Prop :=
  truthy forecast = false ∨ py_contains "days" forecast = Ok false.

(** A reading that is a JSON boolean or NaN. *)
Definition never_over (v : value) : Prop :=
  (∃ b, v = VBool b) ∨ v = VFloat S754_nan.

(** ** The run on the network *)

(** Constants of the module. *)
Definition LAT : spec_float := S754_finite true 5967269506265907 (-47).
Definition LON : spec_float := S754_finite false 6111525431830118 (-45).
Definition TIMEZONE : string := "Pacific/Auckland".
Definition KUTAI_CAM_URL : string := "https://www.kutai.cam/current.jpg".
Definition TASCAM_URL : string := "https://tascam.example.com/latest.jpg".
Definition CAWTHRON_EYE_URL : string :=
  "https://coastalcams.cawthron.org.nz/current.jpg".

(** What a response of [requests] holds for the program. *)
Record response : Type := { status_code : Z; content : list Byte.byte }.

(** [requests.get(url, timeout=10)]: an exception, kept as its text, or
    a response. *)
Inductive reply : Type :=
  | Unreachable (why : string)
  | Answered (resp : response).

(** The arguments the [try] block of [send_email] works with. *)
Record mail : Type := {
  mail_server : string;
  mail_port : Z;
  mail_user : string;
  mail_password : string;
  mail_to : string;
  mail_subject : string;
  mail_body : string
}.

(** What a run does to the outside, in order. *)
Inductive event : Type :=
  | HttpGet (url : string)
  | Printed (line : string)
  | MailAttempt (m : mail).

(** What a run reads from the outside: the replies of the servers;
    [resp.raise_for_status()], which returns or raises; [resp.json()],
    a value or an exception; the environment; [int] on a string; and
    the exception, if any, of the [try] block of [send_email].  An
    exception is kept as its text. *)
Class World : Type := {
  http_get : string → reply;
  raise_for_status : response → option string;
  response_json : response → string + value;
  getenv : string → option string;
  int_of_str : string → option Z;
  smtp_error : mail → option string
}.

(** An exception that leaves [daily_task]: one of the rating code, or
    the [ValueError] of [int] on the port text. *)
Inductive escape : Type :=
  | RatingError (e : exn)
  | PortError (text : string).

Inductive ending (A : Type) : Type :=
  | Done (a : A)
  | Escaped (x : escape).
Arguments Done {A} a.
Arguments Escaped {A} x.

(** A statement sequence with effects: the events so far and how it
    ended. *)
Definition io (A : Type) : Type := list event * ending A.

#[global] Instance io_ret : MRet io := λ A a, ([], Done a).
#[global] Instance io_bind : MBind io := λ A B k m,
  match m with
  | (events, Done a) => let '(more, r) := k a in (events ++ more, r)
  | (events, Escaped x) => (events, Escaped x)
  end.

Definition emit (e : event) : io unit := ([e], Done ()).

(** A pure computation of the rating code inside a run. *)
Definition rated {A} (r : result A) : io A :=
  match r with
  | Ok a => ([], Done a)
  | Raise e => ([], Escaped (RatingError e))
  end.

Section Run.
Context `{Platform} `{World}.

(** [resp = requests.get(url, timeout=10); resp.raise_for_status()] *)
Definition checked_get (url : string) : string + response :=
  match http_get url with
  | Unreachable why => inl why
  | Answered resp =>
      match raise_for_status resp with
      | Some why => inl why
      | None => inr resp
      end
  end.

Definition fetch_json (url : string) : io value :=
  let failed exc : io value :=
    emit (Printed ("Failed to fetch " +:+ url +:+ ": " +:+ exc));;
    mret VNone in
  emit (HttpGet url);;
  match checked_get url with
  | inr resp =>
      match response_json resp with
      | inr v => mret v
      | inl exc => failed exc
      end
  | inl exc => failed exc
  end.

Definition fetch_image (url : string) : io (option (list Byte.byte)) :=
  emit (HttpGet url);;
  match checked_get url with
  | inr resp => mret (Some (content resp))
  | inl exc =>
      emit (Printed ("Failed to fetch image " +:+ url +:+ ": " +:+ exc));;
      mret None
  end.

Definition marine_url : string :=
  "https://marine-api.open-meteo.com/v1/marine"
  +:+ "?latitude=" +:+ float_repr LAT +:+ "&longitude=" +:+ float_repr LON
  +:+ "&hourly=wave_height,wave_direction,wave_period"
  +:+ "&daily=wave_height_max"
  +:+ "&timezone=" +:+ TIMEZONE.

Definition weather_url : string :=
  "https://api.open-meteo.com/v1/forecast"
  +:+ "?latitude=" +:+ float_repr LAT +:+ "&longitude=" +:+ float_repr LON
  +:+ "&hourly=temperature_2m,wind_speed_10m,precipitation_probability"
  +:+ "&timezone=" +:+ TIMEZONE.

Definition get_marine_conditions : io (value * value) :=
  marine ← fetch_json marine_url;
  weather ← fetch_json weather_url;
  mret (marine, weather).

Definition metservice_url : string :=
  "https://www.metservice.com/publicData/localForecastKaikoura".

Definition get_metservice_forecast : io value := fetch_json metservice_url.

(** [bool(v)] of what [os.getenv] returned. *)
Definition configured (v : option string) : bool :=
  match v with
  | Some s => negb (String.eqb s "")
  | None => false
  end.

Definition send_email (subject message : string) : io unit :=
  let user := getenv "EMAIL_USER" in
  let password := getenv "EMAIL_PASS" in
  let to_addr := getenv "EMAIL_TO" in
  let server := default "smtp.gmail.com" (getenv "SMTP_SERVER") in
  let port_text := default "587" (getenv "SMTP_PORT") in
  port ← match int_of_str port_text with
         | Some n => mret n
         | None => ([], Escaped (PortError port_text))
         end;
  if negb (forallb configured [user; password; to_addr]) then
    emit (Printed "Email credentials not configured.")
  else
    let m := {| mail_server := server; mail_port := port;
                mail_user := default "" user;
                mail_password := default "" password;
                mail_to := default "" to_addr;
                mail_subject := subject; mail_body := message |} in
    emit (MailAttempt m);;
    match smtp_error m with
    | None => mret ()
    | Some exc => emit (Printed ("Email sending failed: " +:+ exc))
    end.

Definition daily_task_io : io unit :=
  '(marine, weather) ← get_marine_conditions;
  let '(open_rating, open_reasons) := compute_openmeteo_rating marine weather in
  forecast ← get_metservice_forecast;
  '(met_rating, met_reasons) ← rated (compute_metservice_rating forecast);
  let message_lines :=
    [VStr ("Open-Meteo rating: " +:+ pretty open_rating);
     VStr ("MetService rating: " +:+ pretty met_rating)] in
  image_data ← fetch_image CAWTHRON_EYE_URL;
  let cam_rating := compute_image_rating image_data in
  let message_lines :=
    message_lines ++ [VStr ("CawthronEye rating: " +:+ pretty cam_rating)] in
  let all_ratings := [open_rating; met_rating; cam_rating] in
  overall ← rated (overall_rating all_ratings);
  let message_lines :=
    message_lines ++ [VStr ("Overall rating: " +:+ pretty overall)] in
  let reasons := open_reasons ++ met_reasons in
  message_lines ←
    rated (if truthy (VList reasons) then
             listing ← py_join newline (VStr "Reasons:" :: reasons);
             Ok (message_lines ++ [VStr listing])
           else Ok message_lines);
  message ← rated (py_join newline message_lines);
  send_email "Spearfishing update" message.

End Run.

(** The URLs a log asked for and the mails it attempted, in order. *)
Definition requests (log : list event) : list string :=
  omap (λ e, match e with HttpGet url => Some url | _ => None end) log.

Definition mails (log : list event) : list mail :=
  omap (λ e, match e with MailAttempt m => Some m | _ => None end) log.

Section RunNotions.
Context `{World}.

(** What [fetch_json] and [fetch_image] return for a URL. *)
Definition json_payload (url : string) : value :=
  match checked_get url with
  | inr resp =>
      match response_json resp with
      | inr v => v
      | inl _ => VNone
      end
  | inl _ => VNone
  end.

Definition image_payload (url : string) : option (list Byte.byte) :=
  match checked_get url with
  | inr resp => Some (content resp)
  | inl _ => None
  end.

(** The mail [send_email] attempts, when the port text is an integer
    and the three credentials are set and not empty. *)
Definition outgoing (subject message : string) : option mail :=
  match int_of_str (default "587" (getenv "SMTP_PORT")) with
  | Some port =>
      if forallb configured
           [getenv "EMAIL_USER"; getenv "EMAIL_PASS"; getenv "EMAIL_TO"]
      then Some {| mail_server := default "smtp.gmail.com" (getenv "SMTP_SERVER");
                   mail_port := port;
                   mail_user := default "" (getenv "EMAIL_USER");
                   mail_password := default "" (getenv "EMAIL_PASS");
                   mail_to := default "" (getenv "EMAIL_TO");
                   mail_subject := subject; mail_body := message |}
      else None
  | None => None
  end.

End RunNotions.

(** A world to run on: no server can be reached, the credentials are
    set, the port is left to its default and the SMTP session works. *)
Definition offline_world : World := {|
  http_get := λ _, Unreachable "Network is unreachable";
  raise_for_status := λ _, None;
  response_json := λ _, inl "Expecting value";
  getenv := λ name,
    if String.eqb name "EMAIL_USER" then Some "diver@example.org"
    else if String.eqb name "EMAIL_PASS" then Some "app-token"
    else if String.eqb name "EMAIL_TO" then Some "crew@example.org"
    else None;
  int_of_str := λ text, if String.eqb text "587" then Some 587 else None;
  smtp_error := λ _, None
|}.

(** * Results *)

Lemma result_bind_ok {A B} (a : A) (k : A → result B) : Ok a ≫= k = k a.
Proof. reflexivity. Qed.

(** ** Division of two integers in binary64

    The quotient of a pixel sum by a pixel count is compared with an
    integer threshold; for fewer than 2^45 pixels the rounded quotient
    is on the same side of the threshold as the exact one. *)
Section TrueDivision.

Lemma digits2_pos_bounds p :
  2 ^ (Zpos (digits2_pos p) - 1) ≤ Zpos p < 2 ^ Zpos (digits2_pos p).
Proof.
  induction p as [p IH|p IH|]; simpl digits2_pos; [| |simpl; lia].
  - rewrite Pos2Z.inj_succ.
    replace (Z.succ (Zpos (digits2_pos p)) - 1) with (Z.succ (Zpos (digits2_pos p) - 1)) by lia.
    rewrite !Z.pow_succ_r by lia. lia.
  - rewrite Pos2Z.inj_succ.
    replace (Z.succ (Zpos (digits2_pos p)) - 1) with (Z.succ (Zpos (digits2_pos p) - 1)) by lia.
    rewrite !Z.pow_succ_r by lia. lia.
Qed.

Lemma digits2_pos_unique p d :
  2 ^ (d - 1) ≤ Zpos p < 2 ^ d → Zpos (digits2_pos p) = d.
Proof.
  intros [Hlo Hhi]. pose proof (digits2_pos_bounds p) as [Hlo' Hhi'].
  assert (0 < d) by (destruct (Z.ltb_spec 0 d); [done|]; rewrite Z.pow_neg_r in Hlo by lia; 
     destruct (Z.eq_dec d 0) as [->|]; [simpl in Hhi; lia| rewrite Z.pow_neg_r in Hhi by lia; lia]).
  destruct (Z.lt_trichotomy (Zpos (digits2_pos p)) d) as [Hlt|[?|Hgt]]; [|done|].
  - assert (2 ^ Zpos (digits2_pos p) ≤ 2 ^ (d - 1)) by (apply Z.pow_le_mono_r; lia). lia.
  - assert (2 ^ d ≤ 2 ^ (Zpos (digits2_pos p) - 1)) by (apply Z.pow_le_mono_r; lia). lia.
Qed.

Lemma loc_of_shr_record_of_loc m l :
  loc_of_shr_record (shr_record_of_loc m l) = l.
Proof. by destruct l as [|[]]. Qed.

Lemma shr_m_shr_record_of_loc m l : shr_m (shr_record_of_loc m l) = m.
Proof. by destruct l as [|[]]. Qed.

Lemma round_nearest_even_cases m l :
  round_nearest_even m l = m ∨ (l ≠ loc_Exact ∧ round_nearest_even m l = m + 1).
Proof.
  destruct l as [|[]]; simpl; [by left| |by left|by right].
  destruct (Z.even m); [by left|by right].
Qed.

(** Second rounding stage *)
Lemma shr_fexp_normal m e :
  2 ^ 52 ≤ m ≤ 2 ^ 53 → -1074 ≤ e →
  ∃ m' e', shr_fexp prec emax m e loc_Exact = (m', e')
    ∧ e ≤ e' ≤ e + 1 ∧ 0 < shr_m m' ∧ shr_m m' * 2 ^ (e' - e) = m.
Proof.
  intros Hm He. destruct (Z.eq_dec m (2 ^ 53)) as [->|Hne].
  - exists (Build_shr_record (2 ^ 52) false false), (e + 1).
    unfold shr_fexp. change (Zdigits2 (2 ^ 53)) with 54.
    unfold fexp, emin, prec, emax.
    replace (Z.max (54 + e - 53) (3 - 1024 - 53) - e) with 1 by lia.
    split; [done|]. replace (e + 1 - e) with 1 by lia. simpl shr_m. lia.
  - destruct m as [|p|p]; [lia| |lia].
    exists (Build_shr_record (Zpos p) false false), e.
    unfold shr_fexp. unfold Zdigits2. rewrite (digits2_pos_unique p 53) by lia.
    unfold fexp, emin, prec, emax.
    replace (Z.max (53 + e - 53) (3 - 1024 - 53) - e) with 0 by lia.
    split; [done|]. replace (e - e) with 0 by lia. simpl shr_m. lia.
Qed.

Lemma shr_fexp_53 q e l :
  2 ^ 52 ≤ q < 2 ^ 53 → -1074 ≤ e →
  shr_fexp prec emax q e l = (shr_record_of_loc q l, e).
Proof.
  intros Hq He. destruct q as [|p|p]; [lia| |lia].
  unfold shr_fexp, Zdigits2. rewrite (digits2_pos_unique p 53) by lia.
  unfold fexp, emin, prec, emax.
  by replace (Z.max (53 + e - 53) (3 - 1024 - 53) - e) with 0 by lia.
Qed.

Lemma shr_fexp_54 q e l :
  2 ^ 53 ≤ q < 2 ^ 54 → -1074 ≤ e →
  shr_fexp prec emax q e l = (shr_1 (shr_record_of_loc q l), e + 1).
Proof.
  intros Hq He. destruct q as [|p|p]; [lia| |lia].
  unfold shr_fexp, Zdigits2. rewrite (digits2_pos_unique p 54) by lia.
  unfold fexp, emin, prec, emax.
  by replace (Z.max (54 + e - 53) (3 - 1024 - 53) - e) with 1 by lia.
Qed.

Lemma shr_1_record q l :
  0 < q →
  shr_m (shr_1 (shr_record_of_loc q l)) = q / 2
  ∧ (Z.even q = true →
     loc_of_shr_record (shr_1 (shr_record_of_loc q loc_Exact)) = loc_Exact).
Proof.
  intros Hq. rewrite <- Z.div2_div.
  destruct q as [|[p|p|]|]; [lia| | | |lia]; by destruct l as [|[]].
Qed.

Lemma binary_round_aux_finish m1 e :
  2 ^ 52 ≤ m1 ≤ 2 ^ 53 → -1074 ≤ e ≤ 970 →
  ∃ m e',
    (let '(mrs, e'') := shr_fexp prec emax m1 e loc_Exact in
     match shr_m mrs with
     | Z0 => S754_zero false
     | Zpos m => if e'' <=? emax - prec then S754_finite false m e''
                 else S754_infinity false
     | Zneg _ => S754_nan
     end) = S754_finite false m e'
    ∧ e ≤ e' ≤ e + 1 ∧ Zpos m * 2 ^ (e' - e) = m1.
Proof.
  intros Hm He.
  destruct (shr_fexp_normal m1 e) as (mrs & e' & -> & He' & Hpos & Hval);
    [done|lia|].
  destruct (shr_m mrs) as [|m|m]; [lia| |lia].
  exists m, e'.
  assert ((e' <=? emax - prec) = true) as ->
    by (apply Z.leb_le; unfold emax, prec; lia).
  done.
Qed.

Lemma binary_round_aux_53 q e l :
  2 ^ 52 ≤ q < 2 ^ 53 → -1074 ≤ e ≤ 900 →
  ∃ m e', binary_round_aux prec emax false q e l = S754_finite false m e'
    ∧ e ≤ e' ≤ e + 1
    ∧ (Zpos m * 2 ^ (e' - e) = q
       ∨ (l ≠ loc_Exact ∧ Zpos m * 2 ^ (e' - e) = q + 1)).
Proof.
  intros Hq He. unfold binary_round_aux.
  rewrite shr_fexp_53 by lia.
  rewrite shr_m_shr_record_of_loc, loc_of_shr_record_of_loc.
  destruct (round_nearest_even_cases q l) as [->|[Hl ->]].
  - destruct (binary_round_aux_finish q e) as (m & e' & -> & ? & ?);
      [lia|lia|]. exists m, e'. auto.
  - destruct (binary_round_aux_finish (q + 1) e) as (m & e' & -> & ? & ?);
      [lia|lia|]. exists m, e'. auto.
Qed.

Lemma binary_round_aux_54 q e l :
  2 ^ 53 ≤ q < 2 ^ 54 → -1074 ≤ e ≤ 900 →
  ∃ m e', binary_round_aux prec emax false q e l = S754_finite false m e'
    ∧ e + 1 ≤ e' ≤ e + 2
    ∧ (Zpos m * 2 ^ (e' - (e + 1)) = q / 2
       ∨ (¬ (Z.even q = true ∧ l = loc_Exact)
          ∧ Zpos m * 2 ^ (e' - (e + 1)) = q / 2 + 1)).
Proof.
  intros Hq He. unfold binary_round_aux.
  rewrite shr_fexp_54 by lia.
  destruct (shr_1_record q l) as [-> Hexact]; [lia|].
  assert (2 ^ 52 ≤ q / 2 < 2 ^ 53) as Hh.
  { split; [apply Z.div_le_lower_bound|apply Z.div_lt_upper_bound]; lia. }
  destruct (round_nearest_even_cases (q / 2)
              (loc_of_shr_record (shr_1 (shr_record_of_loc q l))))
    as [->|[Hl ->]].
  - destruct (binary_round_aux_finish (q / 2) (e + 1))
      as (m & e' & -> & ? & ?); [lia|lia|].
    exists m, e'. split_and!; [done|lia|lia|by left].
  - destruct (binary_round_aux_finish (q / 2 + 1) (e + 1))
      as (m & e' & -> & ? & ?); [lia|lia|].
    exists m, e'. split_and!; [done|lia|lia|].
    right. split; [|done]. intros [Heven ->]. by apply Hl, Hexact.
Qed.

Lemma pow2_lt_exponent x y : 0 ≤ y → 2 ^ x < 2 ^ y → x < y.
Proof. intros Hy H. apply (Z.pow_lt_mono_r_iff 2); [lia|done|done]. Qed.

Lemma new_location_exact nb r :
  new_location nb r = loc_Exact ↔ r = 0.
Proof.
  unfold new_location, new_location_even, new_location_odd.
  destruct (Z.even nb), (Z.eqb_spec r 0); split; try done.
Qed.

Lemma SFdiv_core_integers (a b : positive) :
  Zpos b < 2 ^ 45 → Zpos a ≤ 255 * Zpos b →
  ∃ s q r,
    SFdiv_core_binary prec emax (Zpos a) 0 (Zpos b) 0
      = (q, - s, new_location (Zpos b) r)
    ∧ 45 ≤ s ≤ 97 ∧ Zpos a * 2 ^ s = Zpos b * q + r ∧ 0 ≤ r < Zpos b
    ∧ 2 ^ 52 ≤ q < 2 ^ 54.
Proof.
  intros Hb Hab.
  pose proof (digits2_pos_bounds a) as [Ha1 Ha2].
  pose proof (digits2_pos_bounds b) as [Hb1 Hb2].
  set (D1 := Zpos (digits2_pos a)) in *. set (D2 := Zpos (digits2_pos b)) in *.
  assert (1 ≤ D1) by (unfold D1; lia). assert (1 ≤ D2) by (unfold D2; lia).
  assert (D2 ≤ 45) by (enough (D2 - 1 < 45) by lia; apply pow2_lt_exponent; lia).
  assert (D1 ≤ D2 + 8).
  { enough (D1 - 1 < D2 + 8) by lia. apply pow2_lt_exponent; [lia|].
    rewrite Z.pow_add_r by lia. lia. }
  set (s := 53 + D2 - D1).
  exists s, (Zpos a * 2 ^ s / Zpos b), ((Zpos a * 2 ^ s) mod Zpos b).
  assert (Hs : 45 ≤ s ≤ 97) by (unfold s; lia).
  unfold SFdiv_core_binary, Zdigits2, fexp, emin, prec, emax. fold D1 D2.
  replace (((D1 + 0 - (D2 + 0) - 53) `max` (3 - 1024 - 53)) `min` (0 - 0))
    with (- s) by (unfold s; lia).
  replace (0 - 0 - - s) with s by lia.
  assert (Hshift : match s with
                   | 0 => Z.pos a
                   | Z.pos _ => Z.pos a ≪ s
                   | Z.neg _ => 0
                   end = Z.pos a * 2 ^ s).
  { rewrite <- Z.shiftl_mul_pow2 by lia. destruct s; [lia|done|lia]. }
  rewrite Hshift. clear Hshift.
  pose proof (Z.div_mod (Z.pos a * 2 ^ s) (Z.pos b)) as Hdm.
  pose proof (Z.mod_pos_bound (Z.pos a * 2 ^ s) (Z.pos b)) as Hr.
  assert (HS : 2 ^ s * 2 ^ (D1 - 1) = 2 ^ 53 * 2 ^ (D2 - 1)).
  { rewrite <- !Z.pow_add_r by lia. f_equal. unfold s. lia. }
  assert (HD1 : 2 ^ D1 = 2 * 2 ^ (D1 - 1)).
  { rewrite <- Z.pow_succ_r by lia. f_equal. lia. }
  assert (HD2 : 2 ^ D2 = 2 * 2 ^ (D2 - 1)).
  { rewrite <- Z.pow_succ_r by lia. f_equal. lia. }
  assert (0 < 2 ^ s) by (apply Z.pow_pos_nonneg; lia).
  split_and!; [|lia|lia|lia|lia|lia| |].
  - unfold Z.div, Z.modulo. by destruct (Z.div_eucl _ _).
  - apply Z.div_le_lower_bound; [lia|].
    assert (2 ^ s * 2 ^ (D1 - 1) ≤ 2 ^ s * Z.pos a)
      by (apply Z.mul_le_mono_nonneg_l; lia).
    lia.
  - apply Z.div_lt_upper_bound; [lia|].
    assert (2 ^ s * Z.pos a < 2 ^ s * 2 ^ D1)
      by (apply Z.mul_lt_mono_pos_l; lia).
    lia.
Qed.

Lemma threshold_53 a b T S q r M :
  0 < b → b < S → 0 ≤ T → 0 ≤ r < b →
  a * S = b * q + r →
  M = q ∨ (r ≠ 0 ∧ M = q + 1) →
  T * S < M ↔ T * b < a.
Proof.
  intros Hb HS HT Hr Hdiv HM. split.
  - intros Hlt. apply (Z.mul_lt_mono_pos_r S); [lia|].
    destruct HM as [->|[Hr0 ->]]; nia.
  - intros Hlt.
    assert (T * S < q + 1) by nia.
    destruct HM as [->|[Hr0 ->]]; [|lia].
    destruct (Z.eq_dec (T * S) q) as [Heq|]; [|lia].
    assert (r = S * (a - T * b)) by nia. nia.
Qed.

Lemma threshold_54 a b T S q r M :
  0 < b → b < S ∨ T * S < q / 2 → 0 ≤ T → 0 ≤ r < b → 0 < S →
  a * (2 * S) = b * q + r →
  M = q / 2 ∨ (¬ (Z.even q = true ∧ r = 0) ∧ M = q / 2 + 1) →
  T * S < M ↔ T * b < a.
Proof.
  intros Hb HS HT Hr HS0 Hdiv HM.
  pose proof (Z.div_mod q 2) as Hq. pose proof (Z.mod_pos_bound q 2) as Ho.
  rewrite Zmod_even in *.
  set (h := q / 2) in *. split.
  - intros Hlt. apply (Z.mul_lt_mono_pos_r (2 * S)); [lia|].
    destruct HM as [->|[Hr0 ->]].
    + destruct (Z.even q); nia.
    + destruct (Z.even q) eqn:Heven; [|nia].
      assert (r ≠ 0) by (intros ->; by apply Hr0). nia.
  - intros Hlt.
    assert (T * S < h + 1) by (destruct (Z.even q); nia).
    destruct HM as [->|[Hr0 ->]]; [|lia].
    destruct (Z.eq_dec (T * S) h) as [Heq|]; [|lia].
    destruct HS as [HS|HS]; [|lia].
    assert (1 ≤ a - T * b) by lia.
    destruct (Z.even q); nia.
Qed.

Lemma py_truediv_threshold a b T :
  0 < b < 2 ^ 45 → 0 ≤ a ≤ 255 * b → 0 ≤ T ≤ 255 →
  ∃ f, py_truediv a b = Ok f ∧ num_gt (NFloat f) (NInt T) = (T * b <? a).
Proof.
  intros Hb Ha HT. unfold py_truediv.
  destruct (Z.eqb_spec b 0) as [|_]; [lia|].
  destruct (Z.eqb_spec a 0) as [->|Ha0].
  { eexists. split; [done|]. simpl. destruct (Z.ltb_spec (T * b) 0); [lia|].
    destruct (Z.compare_spec T 0); done || lia. }
  destruct a as [|pa|pa]; [done| |lia]. destruct b as [|pb|pb]; [lia| |lia].
  change (Z.pos pa <? 0) with false. change (Z.pos pb <? 0) with false.
  change (Z.to_pos (Z.abs (Z.pos pa))) with pa.
  change (Z.to_pos (Z.abs (Z.pos pb))) with pb.
  unfold SFdiv.
  destruct (SFdiv_core_integers pa pb) as (s & q & r & -> & Hs & Hdiv & Hr & Hq);
    [lia|lia|].
  change (xorb false false) with false.
  assert (HS45 : 2 ^ 45 ≤ 2 ^ s) by (apply Z.pow_le_mono_r; lia).
  destruct (Z.lt_ge_cases q (2 ^ 53)) as [Hq53|Hq54].
  - destruct (binary_round_aux_53 q (- s) (new_location (Z.pos pb) r))
      as (m & e & -> & He & HM); [lia|lia|].
    eexists. split; [done|]. unfold num_gt, Zcompare_float, cond_Zopp.
    destruct (Z.leb_spec 0 e) as [|_]; [lia|].
    rewrite new_location_exact in HM.
    assert (Hscale : 2 ^ (- e) * 2 ^ (e - - s) = 2 ^ s).
    { rewrite <- Z.pow_add_r by lia. f_equal. lia. }
    assert (0 < 2 ^ (e - - s)) by (apply Z.pow_pos_nonneg; lia).
    assert (T * 2 ^ s < Z.pos m * 2 ^ (e - - s) ↔ T * Z.pos pb < Z.pos pa)
      as Hiff by (apply (threshold_53 _ _ _ _ q r); lia).
    assert (T * 2 ^ (- e) < Z.pos m ↔ T * Z.pos pb < Z.pos pa).
    { rewrite <- Hiff, <- Hscale, Z.mul_assoc.
      by apply Z.mul_lt_mono_pos_r. }
    destruct (Z.ltb_spec (T * Z.pos pb) (Z.pos pa)),
      (Z.compare_spec (T * 2 ^ (- e)) (Z.pos m)); done || lia.
  - destruct (binary_round_aux_54 q (- s) (new_location (Z.pos pb) r))
      as (m & e & -> & He & HM); [lia|lia|].
    eexists. split; [done|]. unfold num_gt, Zcompare_float, cond_Zopp.
    destruct (Z.leb_spec 0 e) as [|_]; [lia|].
    rewrite new_location_exact in HM.
    assert (Hscale : 2 ^ (- e) * 2 ^ (e - (- s + 1)) = 2 ^ (s - 1)).
    { rewrite <- Z.pow_add_r by lia. f_equal. lia. }
    assert (0 < 2 ^ (e - (- s + 1))) by (apply Z.pow_pos_nonneg; lia).
    assert (HS2 : 2 ^ s = 2 * 2 ^ (s - 1)).
    { rewrite <- Z.pow_succ_r by lia. f_equal. lia. }
    assert (2 ^ 52 ≤ q / 2) by (apply Z.div_le_lower_bound; lia).
    assert (T * 2 ^ (s - 1) < Z.pos m * 2 ^ (e - (- s + 1))
            ↔ T * Z.pos pb < Z.pos pa) as Hiff.
    { apply (threshold_54 _ _ _ _ q r); try lia.
      - destruct (Z.eq_dec s 45) as [->|].
        + right. change (2 ^ (45 - 1)) with 17592186044416. lia.
        + left. assert (2 ^ 45 ≤ 2 ^ (s - 1)) by (apply Z.pow_le_mono_r; lia).
          lia.
      - exact HM. }
    assert (T * 2 ^ (- e) < Z.pos m ↔ T * Z.pos pb < Z.pos pa).
    { rewrite <- Hiff, <- Hscale, Z.mul_assoc.
      by apply Z.mul_lt_mono_pos_r. }
    destruct (Z.ltb_spec (T * Z.pos pb) (Z.pos pa)),
      (Z.compare_spec (T * 2 ^ (- e)) (Z.pos m)); done || lia.
Qed.

End TrueDivision.

Section Outcome.
Context `{Platform}.

Lemma compute_openmeteo_rating_outcome marine weather :
  compute_openmeteo_rating marine weather = openmeteo_outcome marine weather.
Proof.
  unfold compute_openmeteo_rating, openmeteo_outcome, openmeteo_try,
    wave_check, wind_check, precip_check.
  unfold mbind, block_bind, eval, when, penalise, mret, block_ret.
  destruct (first_wave_height marine) as [h|e]; simpl; [|done].
  destruct (py_gt h _) as [high|e]; simpl; [|done].
  destruct (first_wind_speed weather) as [w|e]; simpl;
    [|by destruct high].
  destruct (py_gt w _) as [windy|e]; simpl; [|by destruct high].
  destruct (first_precipitation weather) as [p|e]; simpl;
    [|by destruct high, windy].
  destruct (py_gt p _) as [wet|e]; simpl;
    [by destruct high, windy, wet | by destruct high, windy].
Qed.

End Outcome.

(** ** Marine/weather rating: results *)
Section OpenMeteo.
Context `{Platform}.

Lemma wave_check_ok marine h high :
  first_wave_height marine = Ok h → py_gt h (NFloat float_1_0) = Ok high →
  wave_check marine = Ok (h, high).
Proof. unfold wave_check. intros -> Hgt. simpl. by rewrite Hgt. Qed.

Lemma wind_check_ok weather w windy :
  first_wind_speed weather = Ok w → py_gt w (NFloat float_7_7) = Ok windy →
  wind_check weather = Ok (w, windy).
Proof. unfold wind_check. intros -> Hgt. simpl. by rewrite Hgt. Qed.

Lemma precip_check_ok weather p wet :
  first_precipitation weather = Ok p → py_gt p (NInt 50) = Ok wet →
  precip_check weather = Ok (p, wet).
Proof. unfold precip_check. intros -> Hgt. simpl. by rewrite Hgt. Qed.

Lemma openmeteo_rating_range marine weather :
  0 ≤ (compute_openmeteo_rating marine weather).1 ≤ 100.
Proof.
  rewrite compute_openmeteo_rating_outcome. unfold openmeteo_outcome.
  destruct (wave_check marine) as [[h high]|e]; simpl; [|lia].
  destruct (wind_check weather) as [[w windy]|e]; simpl; [|lia].
  destruct (precip_check weather) as [[p wet]|e]; simpl; [|lia].
  destruct high, windy, wet; simpl; lia.
Qed.

(** Every reason of the marine/weather rating is a string. *)
Lemma openmeteo_reasons_strings marine weather :
  ∃ texts, (compute_openmeteo_rating marine weather).2 = VStr <$> texts.
Proof.
  rewrite compute_openmeteo_rating_outcome. unfold openmeteo_outcome,
    swell_reason, wind_reason, rain_reason, failure_reason.
  destruct (wave_check marine) as [[h high]|e]; simpl;
    [|by eexists [_]].
  destruct (wind_check weather) as [[w windy]|e]; simpl.
  2: { destruct high; [by eexists [_; _] | by eexists [_]]. }
  destruct (precip_check weather) as [[p wet]|e]; simpl.
  2: { destruct high, windy;
       [by eexists [_; _; _] | by eexists [_; _] | by eexists [_; _]
       | by eexists [_]]. }
  destruct high, windy, wet;
    first [ by eexists [_; _; _] | by eexists [_; _] | by eexists [_]
          | by eexists [] ].
Qed.

(** C1, as amended: when a required field is missing or of the wrong
    shape, [compute_openmeteo_rating] returns score 0 and appends one
    parse-failure reason, as the last element of the reasons, after
    the reasons of the penalties it had already applied, of which
    there are at most two (swell, wind); the list has exactly one
    element when it is the wave height that fails to parse.  The
    reasons are given in full for each field that can fail first: the
    failure alone for the wave height; the swell reason, if the wave
    height is over its limit, and the failure for the wind speed; the
    swell and wind reasons, as triggered, and the failure for the
    precipitation probability. *)
Theorem parse_failure_zero_score marine weather :
  parse_failure marine weather →
  let score := (compute_openmeteo_rating marine weather).1 in
  let notes := (compute_openmeteo_rating marine weather).2 in
  score = 0
  ∧ (∀ e, wave_check marine = Raise e → notes = [failure_reason e])
  ∧ (∀ h high e,
       wave_check marine = Ok (h, high) → wind_check weather = Raise e →
       notes = swell_reason h high ++ [failure_reason e])
  ∧ (∀ h high w windy e,
       wave_check marine = Ok (h, high) →
       wind_check weather = Ok (w, windy) →
       precip_check weather = Raise e →
       notes = swell_reason h high ++ wind_reason w windy
               ++ [failure_reason e])
  ∧ (∃ earlier e, notes = earlier ++ [failure_reason e])
  ∧ (1 ≤ length notes ≤ 3)%nat.
Proof.
  intros Hfail score notes. subst score notes.
  rewrite compute_openmeteo_rating_outcome.
  unfold openmeteo_outcome. unfold parse_failure, raises in *.
  destruct (wave_check marine) as [[h high]|e].
  { destruct (wind_check weather) as [[w windy]|e].
    - destruct (precip_check weather) as [[p wet]|e].
      + destruct Hfail as [[e ?]|[[e ?]|[e ?]]]; discriminate.
      + split_and!; try done;
          first [ by intros ? ? ? ? ? [= <- <-] [= <- <-] [= <-]
                | by exists (swell_reason h high ++ wind_reason w windy), e;
                    rewrite <- (assoc_L (++))
                | destruct high, windy; simpl; lia ].
    - split_and!; try done;
        first [ by intros ? ? ? [= <- <-] [= <-]
              | by exists (swell_reason h high), e
              | destruct high; simpl; lia ]. }
  split_and!; try done;
    first [ by intros ? [= <-] | by exists [], e | simpl; lia ].
Qed.

(** C5: with all three conditions triggered the score is
    max(0, 100-40-30-30) = 0 and the reasons are exactly swell, wind,
    chance of rain, in that order. *)
Theorem all_conditions_triggered marine weather h w p :
  first_wave_height marine = Ok h → py_gt h (NFloat float_1_0) = Ok true →
  first_wind_speed weather = Ok w → py_gt w (NFloat float_7_7) = Ok true →
  first_precipitation weather = Ok p → py_gt p (NInt 50) = Ok true →
  compute_openmeteo_rating marine weather
    = (Z.max 0 (100 - 40 - 30 - 30),
       [VStr ("Swell " +:+ py_format h +:+ " m");
        VStr ("Wind " +:+ py_format w +:+ " m/s");
        VStr "Chance of rain"])
  ∧ Z.max 0 (100 - 40 - 30 - 30) = 0.
Proof.
  intros Hh Hhigh Hw Hwindy Hp Hwet.
  rewrite compute_openmeteo_rating_outcome. unfold openmeteo_outcome.
  rewrite (wave_check_ok _ _ _ Hh Hhigh), (wind_check_ok _ _ _ Hw Hwindy),
    (precip_check_ok _ _ _ Hp Hwet).
  done.
Qed.

(** C6: when the wind-speed and precipitation fields parse, the score
    is exactly 40 below the score the same weather gets with a wave
    height that is not over 1.0 if and only if the wave height is over
    1.0, whatever the wind and precipitation values are. *)
Theorem wave_penalty_exactly_40 marine calm weather h high h0 w windy p wet :
  first_wave_height marine = Ok h → py_gt h (NFloat float_1_0) = Ok high →
  first_wave_height calm = Ok h0 → py_gt h0 (NFloat float_1_0) = Ok false →
  first_wind_speed weather = Ok w → py_gt w (NFloat float_7_7) = Ok windy →
  first_precipitation weather = Ok p → py_gt p (NInt 50) = Ok wet →
  let score := (compute_openmeteo_rating marine weather).1 in
  let calm_score := (compute_openmeteo_rating calm weather).1 in
  (score = calm_score - 40 ↔ high = true)
  ∧ (score = calm_score ↔ high = false)
  ∧ calm_score = 100 - penalty 30 windy - penalty 30 wet.
Proof.
  intros Hh Hhigh Hh0 Hcalm Hw Hwindy Hp Hwet. simpl.
  rewrite !compute_openmeteo_rating_outcome. unfold openmeteo_outcome.
  rewrite (wave_check_ok _ _ _ Hh Hhigh), (wave_check_ok _ _ _ Hh0 Hcalm),
    (wind_check_ok _ _ _ Hw Hwindy), (precip_check_ok _ _ _ Hp Hwet). simpl.
  destruct high, windy, wet; simpl; repeat split; intros; (lia || done).
Qed.

End OpenMeteo.

(** ** Forecast-text rating: results *)
Section MetService.

Lemma prefix_str_lower k s :
  String.prefix k s = true →
  String.prefix (str_lower k) (str_lower s) = true.
Proof.
  revert s. induction k as [|a k IH]; intros [|b s]; simpl; try done.
  destruct (Ascii.ascii_dec a b) as [->|]; [|done].
  intros Hk. destruct (Ascii.ascii_dec _ _); [auto|done].
Qed.

Lemma str_contains_lower k s :
  str_contains k s = true →
  str_contains (str_lower k) (str_lower s) = true.
Proof.
  induction s as [|c s IH]; simpl.
  - rewrite !orb_false_r. apply (prefix_str_lower k "").
  - intros [Hk|Hk]%orb_true_iff; apply orb_true_iff.
    + left. by apply (prefix_str_lower k (String c s)).
    + right. auto.
Qed.

Lemma truthy_str_nonempty s : s ≠ "" → truthy (VStr s) = true.
Proof. by destruct s. Qed.

Lemma str_lower_nonempty s : s ≠ "" → str_lower s ≠ "".
Proof. by destruct s. Qed.

(** What the function returns on a payload of the expected shape. *)
Lemma compute_metservice_rating_first_day forecast day word :
  first_day forecast day →
  from_option id (VStr "") (day !! "forecastWord") = VStr word →
  compute_metservice_rating forecast
    = Ok (keyword_rating (str_lower word),
          if truthy (VStr (str_lower word))
          then [from_option id (VStr "") (day !! "forecast")] else []).
Proof.
  intros (d & rest & -> & Hdays) Hword. unfold compute_metservice_rating.
  assert (truthy (VDict d) = true) as ->.
  { simpl. rewrite bool_decide_eq_false_2; [done|].
    intros ->. by rewrite lookup_empty in Hdays. }
  simpl. rewrite bool_decide_eq_true_2 by (by rewrite Hdays). simpl.
  rewrite Hdays. simpl. rewrite Hword. simpl. unfold keyword_rating.
  destruct (negb (String.eqb (str_lower word) "")); simpl;
    by repeat case_match.
Qed.

Lemma metservice_rating_range forecast r notes :
  compute_metservice_rating forecast = Ok (r, notes) → 0 ≤ r ≤ 100.
Proof.
  unfold compute_metservice_rating. intros Hok.
  repeat match type of Hok with
         | context [mbind _ ?m] =>
             destruct m eqn:?; simpl in Hok; try discriminate
         | context [if ?b then _ else _] =>
             destruct b eqn:?; simpl in Hok; try discriminate
         end;
    injection Hok as <- _; lia.
Qed.

(** C2, at the failing inputs: an empty ["days"] list, a ["days"] that
    is not a sequence, a forecast word that is not a string and a
    payload that is a number each escape [compute_metservice_rating] as
    an exception instead of giving the no-data rating. *)
Theorem metservice_rating_raises :
  compute_metservice_rating (VDict {[ "days" := VList [] ]})
    = Raise (IndexError (VList []))
  ∧ compute_metservice_rating (VDict {[ "days" := VNone ]})
    = Raise (TypeError (OpSubscript (IPos 0)) VNone)
  ∧ compute_metservice_rating (forecast_payload {[ "forecastWord" := VNone ]})
    = Raise (AttributeError VNone "lower")
  ∧ compute_metservice_rating (VInt 5) = Raise (TypeError OpContains (VInt 5)).
Proof. by vm_compute. Qed.

(** C9: a forecast word that matches several keyword sets takes the
    first matching branch, rain/shower before fine/clear/sunny before
    cloud; a word containing both "rain" and "sunny" scores 30. *)
Theorem keyword_precedence forecast day word :
  first_day forecast day →
  day !! "forecastWord" = Some (VStr word) →
  let text := str_lower word in
  let scores r := ∃ notes, compute_metservice_rating forecast = Ok (r, notes) in
  (any_in ["rain"; "shower"] text = true → scores 30)
  ∧ (any_in ["rain"; "shower"] text = false →
     any_in ["fine"; "clear"; "sunny"] text = true → scores 90)
  ∧ (any_in ["rain"; "shower"] text = false →
     any_in ["fine"; "clear"; "sunny"] text = false →
     str_contains "cloud" text = true → scores 60)
  ∧ (str_contains "rain" word = true → str_contains "sunny" word = true →
     scores 30).
Proof.
  intros Hday Hword text scores. unfold scores. clear scores.
  rewrite (compute_metservice_rating_first_day _ _ word Hday)
    by (by rewrite Hword).
  fold text. unfold keyword_rating. split_and!.
  - intros ->. eauto.
  - intros -> ->. eauto.
  - intros -> -> _. eauto.
  - intros Hrain%str_contains_lower _. change (str_lower "rain") with "rain" in Hrain.
    fold text in Hrain. unfold any_in, existsb. rewrite Hrain. simpl. eauto.
Qed.

End MetService.

(** ** Overall rating: results *)
Section Overall.

Lemma mean_is_truncated_upto_300 :
  forallb mean_is_truncated (seqZ 0 301) = true.
Proof. by vm_compute. Qed.

Lemma overall_rating_sum s :
  0 ≤ s ≤ 300 → (avg ← py_truediv s 3; py_int avg) = Ok (s `quot` 3).
Proof.
  intros Hs. pose proof mean_is_truncated_upto_300 as Hall.
  rewrite forallb_forall in Hall. specialize (Hall s).
  unfold mean_is_truncated in Hall.
  destruct (avg ← py_truediv s 3; py_int avg) as [q|e].
  - f_equal. apply Z.eqb_eq, Hall, list_elem_of_In, elem_of_seqZ. lia.
  - discriminate Hall. apply list_elem_of_In, elem_of_seqZ. lia.
Qed.

(** C3: the overall score of three source scores is their arithmetic
    mean truncated toward zero, not rounded: (90, 60, 40) gives 63 and
    (90, 60, 41), of mean 63.67, gives 63 as well. *)
Theorem overall_rating_truncates a b c :
  0 ≤ a ≤ 100 → 0 ≤ b ≤ 100 → 0 ≤ c ≤ 100 →
  overall_rating [a; b; c] = Ok ((a + b + c) `quot` 3)
  ∧ overall_rating [90; 60; 40] = Ok 63
  ∧ overall_rating [90; 60; 41] = Ok 63.
Proof.
  intros Ha Hb Hc. split; [|by vm_compute].
  unfold overall_rating, py_sum. simpl length. simpl foldr.
  change (Z.of_nat 3) with 3. rewrite overall_rating_sum by lia.
  do 2 f_equal. lia.
Qed.

End Overall.

(** ** Image rating: results *)
Section ImageRating.
Context `{Platform}.

Lemma image_rating_values data :
  compute_image_rating data ∈ [0; 40; 70; 90].
Proof.
  unfold compute_image_rating.
  destruct data as [[|b data]|]; [set_solver| |set_solver].
  unfold image_rating_try.
  destruct (gray_pixels (b :: data)) as [pixels|e]; simpl; [|set_solver].
  destruct (py_truediv _ _) as [avg|e]; simpl; [|set_solver].
  repeat case_match; set_solver.
Qed.

Lemma image_rating_range data : 0 ≤ compute_image_rating data ≤ 100.
Proof.
  pose proof (image_rating_values data) as Hv.
  repeat (apply elem_of_cons in Hv as [->|Hv]; [lia|]).
  by apply elem_of_nil in Hv.
Qed.

Lemma py_sum_bounds pixels :
  Forall (λ p, 0 ≤ p ≤ 255) pixels →
  0 ≤ py_sum pixels ≤ 255 * Z.of_nat (length pixels).
Proof.
  induction 1 as [|p pixels Hp _ IH]; [done|].
  unfold py_sum in *. simpl foldr. rewrite length_cons, Nat2Z.inj_succ. lia.
Qed.

Lemma positive_length {A} (l : list A) :
  l ≠ [] → Z.pos (Pos.of_nat (length l)) = Z.of_nat (length l).
Proof.
  intros Hl. rewrite <- positive_nat_Z, Nat2Pos.id; [done|].
  by destruct l.
Qed.

(** The rating of a decoded image, by where its pixel sum stands
    against 150 and 80 times its pixel count. *)
Lemma image_rating_try_thresholds data pixels :
  gray_pixels data = Ok pixels → pixels ≠ [] →
  Z.of_nat (length pixels) < 2 ^ 45 →
  image_rating_try data
    = Ok (if 150 * Z.of_nat (length pixels) <? py_sum pixels then 90
          else if 80 * Z.of_nat (length pixels) <? py_sum pixels then 70
          else 40).
Proof.
  intros Hpixels Hne Hlen. unfold image_rating_try.
  rewrite Hpixels, result_bind_ok.
  pose proof (py_sum_bounds _ (gray_pixels_range _ _ Hpixels)) as Hsum.
  assert (0 < Z.of_nat (length pixels)) as Hpos by (destruct pixels; [done|simpl; lia]).
  destruct (py_truediv_threshold (py_sum pixels) (Z.of_nat (length pixels)) 150)
    as (avg & Havg & H150); [lia|lia|lia|].
  destruct (py_truediv_threshold (py_sum pixels) (Z.of_nat (length pixels)) 80)
    as (avg' & Havg' & H80); [lia|lia|lia|].
  rewrite Havg in Havg'. injection Havg' as <-.
  rewrite Havg, result_bind_ok, H150, H80.
  by repeat case_match.
Qed.

(** C8: the image rating is a step function of the mean grayscale
    intensity with strict comparisons: a mean over 150 gives 90, a mean
    over 80 and at most 150 gives 70, a mean of at most 80 gives 40; a
    mean of exactly 150 gives 70 and a mean of exactly 80 gives 40.
    The image has fewer than 2^45 pixels. *)
Theorem image_rating_step data pixels :
  data ≠ [] →
  gray_pixels data = Ok pixels →
  pixels ≠ [] →
  Z.of_nat (length pixels) < 2 ^ 45 →
  let mean := mean_intensity pixels in
  let score := compute_image_rating (Some data) in
  ((150 < mean)%Q → score = 90)
  ∧ ((80 < mean)%Q → (mean <= 150)%Q → score = 70)
  ∧ ((mean <= 80)%Q → score = 40)
  ∧ ((mean == 150)%Q → score = 70)
  ∧ ((mean == 80)%Q → score = 40).
Proof.
  intros Hdata Hpixels Hne Hlen mean score.
  assert (Hscore : score
    = if 150 * Z.of_nat (length pixels) <? py_sum pixels then 90
      else if 80 * Z.of_nat (length pixels) <? py_sum pixels then 70
      else 40).
  { unfold score, compute_image_rating. destruct data; [done|].
    by rewrite (image_rating_try_thresholds _ _ Hpixels Hne Hlen). }
  rewrite Hscore. unfold mean, mean_intensity, Qlt, Qle, Qeq. simpl.
  rewrite (positive_length _ Hne).
  assert (0 < Z.of_nat (length pixels))
    by (destruct pixels; [done|simpl; lia]).
  destruct (Z.ltb_spec (150 * Z.of_nat (length pixels)) (py_sum pixels)),
    (Z.ltb_spec (80 * Z.of_nat (length pixels)) (py_sum pixels));
    split_and!; intros; lia.
Qed.

End ImageRating.

(** ** Message composition: results *)
Section Message.
Context `{Platform}.

Lemma py_join_strings sep (l : list string) :
  py_join sep (VStr <$> l) = Ok (String.concat sep l).
Proof.
  induction l as [|x l IH]; [done|].
  destruct l as [|y l]; [done|].
  change (py_join sep (VStr <$> x :: y :: l))
    with (r ← py_join sep (VStr <$> y :: l); Ok (x +:+ sep +:+ r)).
  by rewrite IH.
Qed.

Ltac join_strings l :=
  let Hj := fresh "Hj" in
  pose proof (py_join_strings newline l) as Hj;
  cbn [fmap list_fmap app] in Hj |- *; rewrite Hj; clear Hj.

(** The message of a run in which the forecast-text rating returned
    string reasons. *)
Lemma daily_task_composed marine weather forecast image_data met_rating
    (met_notes : list string) :
  compute_metservice_rating forecast = Ok (met_rating, VStr <$> met_notes) →
  ∃ open_rating open_notes,
    compute_openmeteo_rating marine weather
      = (open_rating, VStr <$> open_notes)
    ∧ let cam_rating := compute_image_rating image_data in
      let overall := (open_rating + met_rating + cam_rating) `quot` 3 in
      overall_rating [open_rating; met_rating; cam_rating] = Ok overall
      ∧ daily_task marine weather forecast image_data
        = Ok ("Spearfishing update",
              String.concat newline
                (["Open-Meteo rating: " +:+ pretty open_rating;
                  "MetService rating: " +:+ pretty met_rating;
                  "CawthronEye rating: " +:+ pretty cam_rating;
                  "Overall rating: " +:+ pretty overall]
                 ++ reasons_block (open_notes ++ met_notes))).
Proof.
  intros Hmet.
  destruct (openmeteo_reasons_strings marine weather) as [open_notes Hnotes].
  pose proof (openmeteo_rating_range marine weather) as Hopen.
  pose proof (metservice_rating_range _ _ _ Hmet) as Hmetr.
  pose proof (image_rating_range image_data) as Hcam.
  destruct (compute_openmeteo_rating marine weather)
    as [open_rating open_reasons] eqn:Hcompute.
  simpl in Hnotes, Hopen. subst open_reasons.
  exists open_rating, open_notes. split; [done|]. intros cam_rating overall.
  assert (Hoverall :
    overall_rating [open_rating; met_rating; cam_rating] = Ok overall).
  { unfold overall_rating, py_sum. simpl length. simpl foldr.
    change (Z.of_nat 3) with 3. rewrite overall_rating_sum by lia.
    unfold overall. do 2 f_equal. lia. }
  split; [done|].
  unfold daily_task, reasons_block. rewrite Hcompute. cbv beta iota zeta.
  rewrite Hmet, result_bind_ok. cbv beta iota zeta.
  fold cam_rating. rewrite Hoverall, result_bind_ok.
  rewrite <- fmap_app. cbn [app].
  set (l1 := "Open-Meteo rating: " +:+ pretty open_rating).
  set (l2 := "MetService rating: " +:+ pretty met_rating).
  set (l3 := "CawthronEye rating: " +:+ pretty cam_rating).
  set (l4 := "Overall rating: " +:+ pretty overall).
  destruct (open_notes ++ met_notes) as [|note notes].
  - change (truthy (VList (VStr <$> []))) with false. cbv iota.
    rewrite result_bind_ok. join_strings [l1; l2; l3; l4].
    by rewrite result_bind_ok.
  - change (truthy (VList (VStr <$> note :: notes))) with true. cbv iota.
    join_strings ("Reasons:" :: note :: notes). rewrite !result_bind_ok.
    join_strings ([l1; l2; l3; l4]
                  ++ [String.concat newline ("Reasons:" :: note :: notes)]).
    by rewrite result_bind_ok.
Qed.

(** C4: the message is one line per source rating, labelled
    "Open-Meteo rating", "MetService rating" and the webcam's name
    (CawthronEye) followed by "rating", in that order, then one
    "Overall rating" line, then, only if the two textual sources gave
    reasons, a "Reasons:" line followed by each reason on its own
    line; the webcam rating enters the overall rating and adds no
    reason.  The ratings printed are those the three rating functions
    return on the inputs, the overall rating printed is the sum of the
    three divided by 3 and truncated, and the reasons printed are
    those of [compute_openmeteo_rating] followed by those of
    [compute_metservice_rating]. *)
Theorem daily_task_message marine weather forecast image_data met_rating
    (met_notes : list string) :
  compute_metservice_rating forecast = Ok (met_rating, VStr <$> met_notes) →
  let open_rating := (compute_openmeteo_rating marine weather).1 in
  let cam_rating := compute_image_rating image_data in
  let overall := (open_rating + met_rating + cam_rating) `quot` 3 in
  ∃ open_notes,
    (compute_openmeteo_rating marine weather).2 = VStr <$> open_notes
    ∧ overall_rating [open_rating; met_rating; cam_rating] = Ok overall
    ∧ daily_task marine weather forecast image_data
      = Ok ("Spearfishing update",
            String.concat newline
              (["Open-Meteo rating: " +:+ pretty open_rating;
                "MetService rating: " +:+ pretty met_rating;
                "CawthronEye rating: " +:+ pretty cam_rating;
                "Overall rating: " +:+ pretty overall]
               ++ reasons_block (open_notes ++ met_notes))).
Proof.
  intros Hmet open_rating cam_rating overall.
  destruct (daily_task_composed marine weather _ image_data _ _ Hmet)
    as (rating & open_notes & Hopen & Hoverall & Htask).
  subst overall cam_rating open_rating. rewrite Hopen. cbn [fst snd].
  exists open_notes. split; [reflexivity|]. split; [exact Hoverall|].
  exact Htask.
Qed.

(** C10: when the first day has a non-empty forecast word and no
    "forecast" field, the forecast-text reasons are exactly one empty
    string, and the message of [daily_task] ends with the "Reasons:"
    block whose last line is that empty line. *)
Theorem missing_forecast_text_blank_line marine weather forecast image_data
    day word :
  first_day forecast day →
  day !! "forecastWord" = Some (VStr word) →
  word ≠ "" →
  day !! "forecast" = None →
  (∃ r, compute_metservice_rating forecast = Ok (r, [VStr ""]))
  ∧ ∃ ratings open_notes,
      length ratings = 4%nat
      ∧ (compute_openmeteo_rating marine weather).2 = VStr <$> open_notes
      ∧ daily_task marine weather forecast image_data
        = Ok ("Spearfishing update",
              String.concat newline
                (ratings ++ "Reasons:" :: open_notes ++ [""])).
Proof.
  intros Hday Hword Hnonempty Hnote.
  assert (Hmet : compute_metservice_rating forecast
                 = Ok (keyword_rating (str_lower word), VStr <$> [""])).
  { rewrite (compute_metservice_rating_first_day _ _ word Hday)
      by (by rewrite Hword).
    rewrite truthy_str_nonempty by (by apply str_lower_nonempty).
    by rewrite Hnote. }
  split; [by eexists|].
  destruct (daily_task_composed marine weather _ image_data _ _ Hmet)
    as (open_rating & open_notes & Hopen & _ & Htask).
  assert (Hblock : reasons_block (open_notes ++ [""])
                   = "Reasons:" :: open_notes ++ [""])
    by (unfold reasons_block; by destruct open_notes).
  rewrite Hblock in Htask.
  refine (ex_intro _ [_; _; _; _] (ex_intro _ open_notes
            (conj eq_refl (conj _ Htask)))).
  by rewrite Hopen.
Qed.

(** Every score a rating function returns is in [0, 100]; the
    forecast-text rating does return on the absent payload and on
    every payload whose first day is a dict with a string (or no)
    forecast word. *)
Lemma returned_ratings_within_0_100 :
  (∀ marine weather, 0 ≤ (compute_openmeteo_rating marine weather).1 ≤ 100)
  ∧ (∀ data, 0 ≤ compute_image_rating data ≤ 100)
  ∧ (∀ forecast r notes,
       compute_metservice_rating forecast = Ok (r, notes) → 0 ≤ r ≤ 100)
  ∧ (∃ r notes, compute_metservice_rating VNone = Ok (r, notes))
  ∧ (∀ forecast day word,
       first_day forecast day →
       from_option id (VStr "") (day !! "forecastWord") = VStr word →
       ∃ r notes, compute_metservice_rating forecast = Ok (r, notes)).
Proof.
  split_and!.
  - apply openmeteo_rating_range.
  - apply image_rating_range.
  - apply metservice_rating_range.
  - by eexists _, _.
  - intros forecast day word Hday Hword.
    rewrite (compute_metservice_rating_first_day _ _ _ Hday Hword).
    by eexists _, _.
Qed.

(** C7, at the failing input: [compute_openmeteo_rating] and
    [compute_image_rating] return a score in [0, 100] on every input,
    but on a payload whose ["days"] list is empty
    [compute_metservice_rating] raises and returns no score. *)
Theorem metservice_rating_returns_no_score :
  (∀ marine weather, 0 ≤ (compute_openmeteo_rating marine weather).1 ≤ 100)
  ∧ (∀ data, 0 ≤ compute_image_rating data ≤ 100)
  ∧ compute_metservice_rating (VDict {[ "days" := VList [] ]})
    = Raise (IndexError (VList [])).
Proof.
  split_and!.
  - apply openmeteo_rating_range.
  - apply image_rating_range.
  - by vm_compute.
Qed.

End Message.

(** * Further results *)

Section MetServiceDomain.

Lemma py_getitem_key_inv v k x :
  py_getitem v (IKey k) = Ok x → ∃ d, v = VDict d ∧ d !! k = Some x.
Proof.
  destruct v; simpl; try discriminate.
  destruct (d !! k) eqn:Hk; [|discriminate]. intros [= ->]. eauto.
Qed.

Lemma py_get_inv v k default x :
  py_get v k default = Ok x →
  ∃ d, v = VDict d ∧ x = from_option id default (d !! k).
Proof. destruct v; simpl; try discriminate. intros [= <-]. eauto. Qed.

Lemma py_lower_inv v text :
  py_lower v = Ok text → ∃ s, v = VStr s ∧ text = str_lower s.
Proof. destruct v; simpl; try discriminate. intros [= <-]. eauto. Qed.

Lemma py_getitem_first_dict v d :
  py_getitem v (IPos 0) = Ok (VDict d) → ∃ rest, v = VList (VDict d :: rest).
Proof.
  destruct v; simpl; try discriminate.
  - destruct s; simpl; discriminate.
  - destruct l as [|x rest]; simpl; [discriminate|]. intros [= ->]. eauto.
Qed.

Lemma no_forecast_data_rating forecast :
  no_forecast_data forecast →
  compute_metservice_rating forecast = Ok (0, [VStr "No MetService data"]).
Proof.
  unfold compute_metservice_rating. intros [Hfalsy|Hdays].
  - by rewrite Hfalsy.
  - destruct (truthy forecast); [|done]. simpl. by rewrite Hdays.
Qed.

(** When the guard lets the payload through, what the rest needs. *)
Lemma metservice_rating_inv forecast r notes :
  compute_metservice_rating forecast = Ok (r, notes) →
  no_forecast_data forecast
  ∨ ∃ day word,
      first_day forecast day
      ∧ from_option id (VStr "") (day !! "forecastWord") = VStr word.
Proof.
  unfold compute_metservice_rating, no_forecast_data. intros Hok.
  destruct (truthy forecast) eqn:Htruthy; [|by left; left].
  simpl in Hok.
  destruct (py_contains "days" forecast) as [[|]|e] eqn:Hhas;
    simpl in Hok; [|by left; right|discriminate].
  right.
  destruct (py_getitem forecast (IKey "days")) as [days|e] eqn:Hdays;
    simpl in Hok; [|discriminate].
  destruct (py_getitem days (IPos 0)) as [day|e] eqn:Hday;
    simpl in Hok; [|discriminate].
  destruct (py_get day "forecastWord" (VStr "")) as [word|e] eqn:Hword;
    simpl in Hok; [|discriminate].
  destruct (py_lower word) as [text|e] eqn:Htext; simpl in Hok; [|discriminate].
  apply py_getitem_key_inv in Hdays as (d & -> & Hd).
  apply py_get_inv in Hword as (dd & -> & ->).
  apply py_lower_inv in Htext as (w & Hw & _).
  apply py_getitem_first_dict in Hday as (rest & ->).
  exists dd, w. split; [by exists d, rest|done].
Qed.

(** [compute_metservice_rating] returns, rather than raises, exactly
    on a payload that is falsy or holds no ["days"], and on a dict
    whose ["days"] is a list starting with a dict whose forecast word
    is missing or a string. *)
Theorem metservice_rating_returns_iff forecast :
  (∃ r notes, compute_metservice_rating forecast = Ok (r, notes))
  ↔ no_forecast_data forecast
    ∨ ∃ day word,
        first_day forecast day
        ∧ from_option id (VStr "") (day !! "forecastWord") = VStr word.
Proof.
  split.
  - intros (r & notes & Hok). by eapply metservice_rating_inv.
  - intros [Hno|(day & word & Hday & Hword)].
    + rewrite (no_forecast_data_rating _ Hno). eauto.
    + rewrite (compute_metservice_rating_first_day _ _ _ Hday Hword). eauto.
Qed.

Lemma keyword_rating_values text :
  keyword_rating text = 30 ∨ keyword_rating text = 90
  ∨ keyword_rating text = 60.
Proof. unfold keyword_rating. repeat case_match; auto. Qed.

Lemma first_day_has_data forecast day :
  first_day forecast day → ¬ no_forecast_data forecast.
Proof.
  intros (d & rest & -> & Hdays) [Hfalsy|Hhas].
  - simpl in Hfalsy. apply negb_false_iff, bool_decide_eq_true in Hfalsy.
    subst d. by rewrite lookup_empty in Hdays.
  - simpl in Hhas. injection Hhas as Hhas.
    apply bool_decide_eq_false in Hhas. apply Hhas. by rewrite Hdays.
Qed.

(** The forecast-text score 0 is the no-data rating: it is returned
    exactly on a payload that is falsy or holds no ["days"], and always
    with the single reason "No MetService data". *)
Theorem metservice_zero_iff_no_data forecast :
  ((∃ notes, compute_metservice_rating forecast = Ok (0, notes))
   ↔ no_forecast_data forecast)
  ∧ ∀ notes, compute_metservice_rating forecast = Ok (0, notes) →
             notes = [VStr "No MetService data"].
Proof.
  assert (Hzero : ∀ notes,
    compute_metservice_rating forecast = Ok (0, notes) →
    no_forecast_data forecast).
  { intros notes Hok.
    destruct (metservice_rating_inv _ _ _ Hok)
      as [Hno|(day & word & Hday & Hword)]; [done|].
    rewrite (compute_metservice_rating_first_day _ _ _ Hday Hword) in Hok.
    injection Hok as Hr _.
    destruct (keyword_rating_values (str_lower word)) as [?|[?|?]]; lia. }
  split; [split|].
  - intros [notes Hok]. by eapply Hzero.
  - intros Hno. rewrite (no_forecast_data_rating _ Hno). eauto.
  - intros notes Hok. pose proof (Hzero _ Hok) as Hno.
    rewrite (no_forecast_data_rating _ Hno) in Hok. by injection Hok as <-.
Qed.

(** On a payload of the expected shape, an empty or missing forecast
    word gives rating 60 and no reason, whatever the "forecast" text
    is; a non-empty word gives exactly one reason, the "forecast" field
    (the empty string when the field is missing). *)
Theorem forecast_text_reported_iff_word forecast day word :
  first_day forecast day →
  from_option id (VStr "") (day !! "forecastWord") = VStr word →
  ∃ r notes,
    compute_metservice_rating forecast = Ok (r, notes)
    ∧ (word = "" → r = 60 ∧ notes = [])
    ∧ (word ≠ "" → notes = [from_option id (VStr "") (day !! "forecast")]).
Proof.
  intros Hday Hword.
  rewrite (compute_metservice_rating_first_day _ _ _ Hday Hword).
  eexists _, _. split; [done|]. split.
  - by intros ->.
  - intros Hne. by rewrite truthy_str_nonempty by by apply str_lower_nonempty.
Qed.

(** Keywords are matched without regard to letter case: a forecast
    word that contains "rain" or "shower" in any mix of capitals and
    small letters scores 30. *)
Theorem keyword_case_insensitive forecast day word k :
  first_day forecast day →
  day !! "forecastWord" = Some (VStr word) →
  str_contains k word = true →
  str_lower k = "rain" ∨ str_lower k = "shower" →
  ∃ notes, compute_metservice_rating forecast = Ok (30, notes).
Proof.
  intros Hday Hword Hk%str_contains_lower Hlow.
  rewrite (compute_metservice_rating_first_day _ _ word Hday)
    by (by rewrite Hword).
  unfold keyword_rating, any_in, existsb.
  destruct Hlow as [Hlow|Hlow]; rewrite Hlow in Hk; rewrite Hk;
    rewrite ?orb_true_r; simpl; eauto.
Qed.

End MetServiceDomain.

Section DailyTaskDomain.
Context `{Platform}.

Lemma py_join_ok_strings sep l s :
  py_join sep l = Ok s → ∃ strs, l = VStr <$> strs.
Proof.
  revert s. induction l as [|v rest IH]; intros s Hok; [by exists []|].
  destruct v; try discriminate.
  destruct rest as [|v' rest]; [by eexists [_]|].
  change (py_join sep (VStr s0 :: v' :: rest))
    with (r ← py_join sep (v' :: rest); Ok (s0 +:+ sep +:+ r)) in Hok.
  destruct (py_join sep (v' :: rest)) as [r|e]; [|discriminate].
  destruct (IH r eq_refl) as [strs Hstrs].
  exists (s0 :: strs). by rewrite Hstrs.
Qed.

Lemma py_join_first_non_string sep (strs : list string) v rest :
  (∀ s, v ≠ VStr s) →
  py_join sep ((VStr <$> strs) ++ v :: rest) = Raise (TypeError OpJoin v).
Proof.
  intros Hv. induction strs as [|x strs IH].
  - simpl app. destruct v; try done. by destruct (Hv s).
  - change (py_join sep ((VStr <$> x :: strs) ++ v :: rest))
      with (py_join sep (VStr x :: ((VStr <$> strs) ++ v :: rest))).
    destruct ((VStr <$> strs) ++ v :: rest) as [|y ys] eqn:Htail;
      [by destruct strs|].
    change (py_join sep (VStr x :: y :: ys))
      with (r ← py_join sep (y :: ys); Ok (x +:+ sep +:+ r)).
    by rewrite IH.
Qed.

Lemma daily_task_reasons_joined marine weather forecast image_data r reasons :
  compute_metservice_rating forecast = Ok (r, reasons) →
  ∃ open_notes lines,
    (compute_openmeteo_rating marine weather).2 = VStr <$> open_notes
    ∧ daily_task marine weather forecast image_data
      = (message_lines ←
           (if truthy (VList ((VStr <$> open_notes) ++ reasons)) then
              listing ← py_join newline
                (VStr "Reasons:" :: (VStr <$> open_notes) ++ reasons);
              Ok ((VStr <$> lines) ++ [VStr listing])
            else Ok (VStr <$> lines));
         message ← py_join newline message_lines;
         Ok ("Spearfishing update", message)).
Proof.
  intros Hmet.
  destruct (openmeteo_reasons_strings marine weather) as [open_notes Hnotes].
  pose proof (openmeteo_rating_range marine weather) as Hopen.
  pose proof (metservice_rating_range _ _ _ Hmet) as Hmetr.
  pose proof (image_rating_range image_data) as Hcam.
  destruct (compute_openmeteo_rating marine weather)
    as [open_rating open_reasons] eqn:Hcompute.
  simpl in Hnotes, Hopen. subst open_reasons.
  set (cam_rating := compute_image_rating image_data) in *.
  set (overall := (open_rating + r + cam_rating) `quot` 3).
  assert (Hoverall :
    overall_rating [open_rating; r; cam_rating] = Ok overall).
  { unfold overall_rating, py_sum. simpl length. simpl foldr.
    change (Z.of_nat 3) with 3. rewrite overall_rating_sum by lia.
    unfold overall. do 2 f_equal. lia. }
  exists open_notes,
    ["Open-Meteo rating: " +:+ pretty open_rating;
     "MetService rating: " +:+ pretty r;
     "CawthronEye rating: " +:+ pretty cam_rating;
     "Overall rating: " +:+ pretty overall].
  split; [done|].
  unfold daily_task. rewrite Hcompute. cbv beta iota zeta.
  rewrite Hmet, result_bind_ok. cbv beta iota zeta.
  fold cam_rating. by rewrite Hoverall, result_bind_ok.
Qed.

(** [daily_task] composes a message, rather than raises, exactly when
    [compute_metservice_rating] returns and all its reasons are
    strings. *)
Theorem daily_task_returns_iff marine weather forecast image_data :
  (∃ out, daily_task marine weather forecast image_data = Ok out)
  ↔ ∃ r (notes : list string),
      compute_metservice_rating forecast = Ok (r, VStr <$> notes).
Proof.
  split.
  - intros [out Hout].
    destruct (compute_metservice_rating forecast) as [[r reasons]|e] eqn:Hmet.
    2: { unfold daily_task in Hout.
         destruct (compute_openmeteo_rating marine weather).
         rewrite Hmet in Hout. discriminate Hout. }
    exists r.
    destruct (daily_task_reasons_joined marine weather _ image_data _ _ Hmet)
      as (open_notes & lines & _ & Htask).
    rewrite Htask in Hout. clear Htask.
    destruct (truthy (VList ((VStr <$> open_notes) ++ reasons))) eqn:Hany.
    + destruct (py_join newline
                  (VStr "Reasons:" :: (VStr <$> open_notes) ++ reasons))
        as [listing|e] eqn:Hjoin; [|discriminate Hout].
      apply py_join_ok_strings in Hjoin as [strs Hstrs].
      destruct strs as [|s0 strs]; [discriminate|].
      injection Hstrs as _ Hstrs. symmetry in Hstrs.
      apply fmap_app_inv in Hstrs as (l1 & l2 & _ & -> & _). by exists l2.
    + exists []. destruct open_notes, reasons; done.
  - intros (r & notes & Hmet).
    destruct (daily_task_composed marine weather _ image_data _ _ Hmet)
      as (? & ? & _ & _ & ->). eauto.
Qed.

(** When the first day has a non-empty forecast word and a "forecast"
    field that is not a string (null, a number, a list), the field is
    returned as a reason and joining the reasons raises [TypeError]:
    [daily_task] composes no message. *)
Theorem non_string_forecast_text_escapes marine weather forecast image_data
    day word note :
  first_day forecast day →
  day !! "forecastWord" = Some (VStr word) → word ≠ "" →
  day !! "forecast" = Some note → (∀ s, note ≠ VStr s) →
  compute_metservice_rating forecast
    = Ok (keyword_rating (str_lower word), [note])
  ∧ daily_task marine weather forecast image_data
    = Raise (TypeError OpJoin note).
Proof.
  intros Hday Hword Hne Hnote Hnot.
  assert (Hmet : compute_metservice_rating forecast
                 = Ok (keyword_rating (str_lower word), [note])).
  { rewrite (compute_metservice_rating_first_day _ _ word Hday)
      by (by rewrite Hword).
    rewrite truthy_str_nonempty by (by apply str_lower_nonempty).
    by rewrite Hnote. }
  split; [done|].
  destruct (daily_task_reasons_joined marine weather _ image_data _ _ Hmet)
    as (open_notes & lines & _ & ->).
  assert (truthy (VList ((VStr <$> open_notes) ++ [note])) = true) as ->
    by (by destruct open_notes).
  change (VStr "Reasons:" :: (VStr <$> open_notes) ++ [note])
    with ((VStr <$> "Reasons:" :: open_notes) ++ [note]).
  by rewrite py_join_first_non_string.
Qed.

End DailyTaskDomain.

Section OpenMeteoMore.
Context `{Platform}.

(** The marine/weather rating has no reason exactly when its score is
    100; it never has more than three reasons, and its score is one of
    0, 30, 40, 60, 70, 100. *)
Theorem openmeteo_no_reason_iff_100 marine weather :
  let '(score, notes) := compute_openmeteo_rating marine weather in
  (notes = [] ↔ score = 100)
  ∧ (length notes ≤ 3)%nat
  ∧ score ∈ [0; 30; 40; 60; 70; 100].
Proof.
  rewrite compute_openmeteo_rating_outcome. unfold openmeteo_outcome.
  destruct (wave_check marine) as [[h high]|e].
  2: { split_and!; [split; [done|lia]|simpl; lia|set_solver]. }
  destruct (wind_check weather) as [[w windy]|e].
  2: { split_and!; [split; [by destruct high|lia]
                   |destruct high; simpl; lia|set_solver]. }
  destruct (precip_check weather) as [[p wet]|e].
  2: { split_and!; [split; [by destruct high, windy|lia]
                   |destruct high, windy; simpl; lia|set_solver]. }
  destruct high, windy, wet; simpl;
    (split_and!; [split; (done || lia)|lia|set_solver]).
Qed.

Lemma openmeteo_score_of_checks marine weather h high w windy p wet :
  first_wave_height marine = Ok h → py_gt h (NFloat float_1_0) = Ok high →
  first_wind_speed weather = Ok w → py_gt w (NFloat float_7_7) = Ok windy →
  first_precipitation weather = Ok p → py_gt p (NInt 50) = Ok wet →
  compute_openmeteo_rating marine weather
  = (100 - penalty 40 high - penalty 30 windy - penalty 30 wet,
     swell_reason h high ++ wind_reason w windy ++ rain_reason wet).
Proof.
  intros Hh Hhigh Hw Hwindy Hp Hwet.
  rewrite compute_openmeteo_rating_outcome. unfold openmeteo_outcome.
  by rewrite (wave_check_ok _ _ _ Hh Hhigh), (wind_check_ok _ _ _ Hw Hwindy),
    (precip_check_ok _ _ _ Hp Hwet).
Qed.

Lemma py_gt_integer n :
  py_gt (VInt n) (NFloat float_1_0) = Ok (2 <=? n)
  ∧ py_gt (VInt n) (NFloat float_7_7) = Ok (8 <=? n)
  ∧ py_gt (VInt n) (NInt 50) = Ok (51 <=? n).
Proof.
  unfold py_gt, num_gt, Zcompare_float, float_1_0, float_7_7. simpl.
  change (2 ^ (- (-52))) with 4503599627370496.
  change (2 ^ (- (-50))) with 1125899906842624.
  split_and!; f_equal.
  - destruct (Z.leb_spec 2 n), (Z.compare_spec (n * 4503599627370496)
      4503599627370496); done || lia.
  - destruct (Z.leb_spec 8 n), (Z.compare_spec (n * 1125899906842624)
      8669429282688205); done || lia.
  - lia.
Qed.

Lemma openmeteo_integer_score marine weather h w p :
  first_wave_height marine = Ok (VInt h) →
  first_wind_speed weather = Ok (VInt w) →
  first_precipitation weather = Ok (VInt p) →
  (compute_openmeteo_rating marine weather).1
  = 100 - penalty 40 (2 <=? h) - penalty 30 (8 <=? w) - penalty 30 (51 <=? p).
Proof.
  intros Hh Hw Hp.
  destruct (py_gt_integer h) as (Hhigh & _ & _).
  destruct (py_gt_integer w) as (_ & Hwindy & _).
  destruct (py_gt_integer p) as (_ & _ & Hwet).
  by rewrite (openmeteo_score_of_checks _ _ _ _ _ _ _ _ Hh Hhigh Hw Hwindy
                Hp Hwet).
Qed.

(** For integer readings the penalties are: 40 from a wave height of
    2 on, 30 from a wind speed of 8 on, 30 from a precipitation
    probability of 51 on. *)
Theorem openmeteo_integer_readings marine weather h w p :
  first_wave_height marine = Ok (VInt h) →
  first_wind_speed weather = Ok (VInt w) →
  first_precipitation weather = Ok (VInt p) →
  (compute_openmeteo_rating marine weather).1
  = 100 - (if 2 <=? h then 40 else 0) - (if 8 <=? w then 30 else 0)
        - (if 51 <=? p then 30 else 0).
Proof. apply openmeteo_integer_score. Qed.

(** Integer readings that are all at least as large never give a
    higher marine/weather score. *)
Theorem openmeteo_integer_monotone marine weather marine' weather'
    h w p h' w' p' :
  first_wave_height marine = Ok (VInt h) →
  first_wind_speed weather = Ok (VInt w) →
  first_precipitation weather = Ok (VInt p) →
  first_wave_height marine' = Ok (VInt h') →
  first_wind_speed weather' = Ok (VInt w') →
  first_precipitation weather' = Ok (VInt p') →
  h ≤ h' → w ≤ w' → p ≤ p' →
  (compute_openmeteo_rating marine' weather').1
  ≤ (compute_openmeteo_rating marine weather).1.
Proof.
  intros Hh Hw Hp Hh' Hw' Hp' ? ? ?.
  rewrite (openmeteo_integer_score _ _ _ _ _ Hh Hw Hp),
    (openmeteo_integer_score _ _ _ _ _ Hh' Hw' Hp').
  unfold penalty.
  destruct (Z.leb_spec 2 h), (Z.leb_spec 2 h'), (Z.leb_spec 8 w),
    (Z.leb_spec 8 w'), (Z.leb_spec 51 p), (Z.leb_spec 51 p'); lia.
Qed.

(** Readings that are JSON booleans or NaN are taken as numbers that
    are not over their limit: no penalty, no parse failure, score 100
    and no reason. *)
Theorem openmeteo_boolean_or_nan_readings marine weather h w p :
  first_wave_height marine = Ok h → never_over h →
  first_wind_speed weather = Ok w → never_over w →
  first_precipitation weather = Ok p → never_over p →
  compute_openmeteo_rating marine weather = (100, []).
Proof.
  intros Hh Nh Hw Nw Hp Np.
  rewrite (openmeteo_score_of_checks _ _ h false w false p false);
    [done|done| |done| |done|].
  - by destruct Nh as [[[] ->]| ->].
  - by destruct Nw as [[[] ->]| ->].
  - by destruct Np as [[[] ->]| ->].
Qed.

Lemma first_values_of_payloads h w p :
  first_wave_height (marine_payload h) = Ok h
  ∧ first_wind_speed (weather_payload w p) = Ok w
  ∧ first_precipitation (weather_payload w p) = Ok p.
Proof. by vm_compute. Qed.

(** Only the first daily wave height and the first hourly wind speed
    and precipitation probability are read: payloads rate as the
    payloads that hold just these three values, whatever their later
    values and other keys are. *)
Theorem openmeteo_reads_first_values (dm dd dw dh : gmap string value)
    h hs w ws p ps :
  dm !! "daily" = Some (VDict dd) →
  dd !! "wave_height_max" = Some (VList (h :: hs)) →
  dw !! "hourly" = Some (VDict dh) →
  dh !! "wind_speed_10m" = Some (VList (w :: ws)) →
  dh !! "precipitation_probability" = Some (VList (p :: ps)) →
  compute_openmeteo_rating (VDict dm) (VDict dw)
  = compute_openmeteo_rating (marine_payload h) (weather_payload w p).
Proof.
  intros Hdaily Hwave Hhourly Hwind Hprecip.
  destruct (first_values_of_payloads h w p) as (Hh & Hw & Hp).
  assert (first_wave_height (VDict dm) = Ok h) as Hh'.
  { unfold first_wave_height. simpl. rewrite Hdaily. simpl. by rewrite Hwave. }
  assert (first_wind_speed (VDict dw) = Ok w) as Hw'.
  { unfold first_wind_speed. simpl. rewrite Hhourly. simpl. by rewrite Hwind. }
  assert (first_precipitation (VDict dw) = Ok p) as Hp'.
  { unfold first_precipitation. simpl. rewrite Hhourly. simpl.
    by rewrite Hprecip. }
  rewrite !compute_openmeteo_rating_outcome.
  unfold openmeteo_outcome, wave_check, wind_check, precip_check.
  by rewrite Hh, Hw, Hp, Hh', Hw', Hp'.
Qed.

End OpenMeteoMore.

Section ImageMore.
Context `{Platform}.

Lemma image_rating_decoded data pixels :
  data ≠ [] → gray_pixels data = Ok pixels → pixels ≠ [] →
  Z.of_nat (length pixels) < 2 ^ 45 →
  compute_image_rating (Some data)
  = if 150 * Z.of_nat (length pixels) <? py_sum pixels then 90
    else if 80 * Z.of_nat (length pixels) <? py_sum pixels then 70
    else 40.
Proof.
  intros Hdata Hpixels Hne Hlen. unfold compute_image_rating.
  destruct data; [done|].
  by rewrite (image_rating_try_thresholds _ _ Hpixels Hne Hlen).
Qed.

(** Of two decoded images of fewer than 2^45 pixels, the one with the
    higher mean intensity never rates lower. *)
Theorem image_rating_monotone data1 pixels1 data2 pixels2 :
  data1 ≠ [] → gray_pixels data1 = Ok pixels1 → pixels1 ≠ [] →
  Z.of_nat (length pixels1) < 2 ^ 45 →
  data2 ≠ [] → gray_pixels data2 = Ok pixels2 → pixels2 ≠ [] →
  Z.of_nat (length pixels2) < 2 ^ 45 →
  (mean_intensity pixels1 <= mean_intensity pixels2)%Q →
  compute_image_rating (Some data1) ≤ compute_image_rating (Some data2).
Proof.
  intros Hd1 Hp1 Hn1 Hl1 Hd2 Hp2 Hn2 Hl2 Hmean.
  rewrite (image_rating_decoded _ _ Hd1 Hp1 Hn1 Hl1),
    (image_rating_decoded _ _ Hd2 Hp2 Hn2 Hl2).
  unfold mean_intensity, Qle in Hmean. simpl in Hmean.
  rewrite (positive_length _ Hn1), (positive_length _ Hn2) in Hmean.
  assert (0 < Z.of_nat (length pixels1))
    by (destruct pixels1; [done|simpl; lia]).
  assert (0 < Z.of_nat (length pixels2))
    by (destruct pixels2; [done|simpl; lia]).
  set (n1 := Z.of_nat (length pixels1)) in *.
  set (n2 := Z.of_nat (length pixels2)) in *.
  set (s1 := py_sum pixels1) in *. set (s2 := py_sum pixels2) in *.
  destruct (Z.ltb_spec (150 * n1) s1), (Z.ltb_spec (150 * n2) s2),
    (Z.ltb_spec (80 * n1) s1), (Z.ltb_spec (80 * n2) s2); nia.
Qed.

(** The image rating is 0 exactly when there is no usable image: the
    data is absent or empty, the decoder raises, or the image has no
    pixel; a decoded image of fewer than 2^45 pixels rates 40, 70 or
    90. *)
Theorem image_rating_zero_iff data :
  (∀ bytes pixels, data = Some bytes → gray_pixels bytes = Ok pixels →
     Z.of_nat (length pixels) < 2 ^ 45) →
  (compute_image_rating data = 0
   ↔ data = None ∨ data = Some []
     ∨ ∃ bytes, data = Some bytes
         ∧ (raises (gray_pixels bytes) ∨ gray_pixels bytes = Ok []))
  ∧ (∀ bytes pixels,
       data = Some bytes → bytes ≠ [] →
       gray_pixels bytes = Ok pixels → pixels ≠ [] →
       compute_image_rating data = 40 ∨ compute_image_rating data = 70
       ∨ compute_image_rating data = 90).
Proof.
  intros Hsize. split; [|intros bytes pixels -> Hdata Hpixels Hne].
  2: { rewrite (image_rating_decoded _ _ Hdata Hpixels Hne
                  (Hsize _ _ eq_refl Hpixels)).
       repeat case_match; auto. }
  split.
  - intros Hzero. destruct data as [[|b bytes]|]; [by right; left| |by left].
    right; right. exists (b :: bytes). split; [done|].
    destruct (gray_pixels (b :: bytes)) as [[|p pixels]|e] eqn:Hpixels;
      [by right| |left; by exists e].
    assert (Hdata : b :: bytes ≠ []) by done.
    assert (Hne : p :: pixels ≠ []) by done.
    rewrite (image_rating_decoded _ _ Hdata Hpixels Hne
               (Hsize _ _ eq_refl Hpixels)) in Hzero.
    repeat case_match; discriminate.
  - intros [->|[->|(bytes & -> & Hbad)]]; [done|done|].
    unfold compute_image_rating, image_rating_try.
    destruct bytes as [|b bytes]; [done|].
    destruct Hbad as [[e Hbad]|Hbad]; by rewrite Hbad.
Qed.

End ImageMore.

Section OverallMore.

(** The overall rating of three ratings in [0, 100] lies between the
    lowest and the highest of them. *)
Theorem overall_rating_between a b c :
  0 ≤ a ≤ 100 → 0 ≤ b ≤ 100 → 0 ≤ c ≤ 100 →
  ∃ overall,
    overall_rating [a; b; c] = Ok overall
    ∧ a `min` (b `min` c) ≤ overall ≤ a `max` (b `max` c).
Proof.
  intros Ha Hb Hc. exists ((a + b + c) `quot` 3). split.
  - unfold overall_rating, py_sum. simpl length. simpl foldr.
    change (Z.of_nat 3) with 3. rewrite overall_rating_sum by lia.
    do 2 f_equal. lia.
  - rewrite Z.quot_div_nonneg by lia.
    pose proof (Z.div_mod (a + b + c) 3). pose proof (Z.mod_pos_bound (a + b + c) 3).
    lia.
Qed.

End OverallMore.

Section RunResults.
Context `{Platform} `{World}.

Lemma fetch_json_run url :
  ∃ log, fetch_json url = (log, Done (json_payload url))
         ∧ requests log = [url] ∧ mails log = [].
Proof.
  unfold fetch_json, json_payload.
  destruct (checked_get url) as [exc|resp]; [by eexists|].
  destruct (response_json resp) as [exc|v]; by eexists.
Qed.

Lemma fetch_image_run url :
  ∃ log, fetch_image url = (log, Done (image_payload url))
         ∧ requests log = [url] ∧ mails log = [].
Proof.
  unfold fetch_image, image_payload.
  destruct (checked_get url) as [exc|resp]; by eexists.
Qed.

Lemma send_email_run subject message :
  requests (send_email subject message).1 = []
  ∧ mails (send_email subject message).1
    = option_list (outgoing subject message)
  ∧ (int_of_str (default "587" (getenv "SMTP_PORT")) = None →
     send_email subject message
     = ([], Escaped (PortError (default "587" (getenv "SMTP_PORT")))))
  ∧ (is_Some (int_of_str (default "587" (getenv "SMTP_PORT"))) →
     (send_email subject message).2 = Done ()).
Proof.
  unfold send_email, outgoing.
  destruct (int_of_str _) as [port|]; [|by split_and!; [..|intros []]].
  simpl.
  destruct (configured (getenv "EMAIL_USER")), (configured (getenv "EMAIL_PASS")),
    (configured (getenv "EMAIL_TO")); simpl; try done;
    destruct (smtp_error _); done.
Qed.

Lemma rated_ok_bind {A B} (a : A) (k : A → io B) : rated (Ok a) ≫= k = k a.
Proof. unfold mbind, io_bind, rated. by destruct (k a). Qed.

Lemma io_done_bind {A B} log (a : A) (k : A → io B) :
  ((log, Done a) : io A) ≫= k = (log ++ (k a).1, (k a).2).
Proof. unfold mbind, io_bind. by destruct (k a). Qed.

Lemma daily_task_io_run :
  let marine := json_payload marine_url in
  let weather := json_payload weather_url in
  let forecast := json_payload metservice_url in
  let image_data := image_payload CAWTHRON_EYE_URL in
  ∃ lm lw lf li,
    fetch_json marine_url = (lm, Done marine)
    ∧ fetch_json weather_url = (lw, Done weather)
    ∧ fetch_json metservice_url = (lf, Done forecast)
    ∧ fetch_image CAWTHRON_EYE_URL = (li, Done image_data)
    ∧ daily_task_io
      = match compute_metservice_rating forecast with
        | Raise e => (lm ++ lw ++ lf, Escaped (RatingError e))
        | Ok _ =>
            match daily_task marine weather forecast image_data with
            | Ok (subject, message) =>
                (lm ++ lw ++ lf ++ li ++ (send_email subject message).1,
                 (send_email subject message).2)
            | Raise e => (lm ++ lw ++ lf ++ li, Escaped (RatingError e))
            end
        end.
Proof.
  intros marine weather forecast image_data.
  destruct (fetch_json_run marine_url) as (lm & Hm & _).
  destruct (fetch_json_run weather_url) as (lw & Hw & _).
  destruct (fetch_json_run metservice_url) as (lf & Hf & _).
  destruct (fetch_image_run CAWTHRON_EYE_URL) as (li & Hi & _).
  exists lm, lw, lf, li. split_and!; try done.
  fold marine in Hm. fold weather in Hw. fold forecast in Hf.
  fold image_data in Hi.
  unfold daily_task_io, daily_task, get_marine_conditions,
    get_metservice_forecast.
  rewrite Hm, io_done_bind, Hw, io_done_bind. cbn [fst snd mret io_ret].
  rewrite io_done_bind.
  destruct (compute_openmeteo_rating marine weather)
    as [open_rating open_reasons].
  rewrite Hf, io_done_bind.
  destruct (compute_metservice_rating forecast)
    as [[met_rating met_reasons]|e].
  2: { cbn. by rewrite !app_nil_r, <- !(assoc_L (++)). }
  rewrite rated_ok_bind, result_bind_ok. cbv beta iota zeta.
  rewrite Hi, io_done_bind.
  destruct (overall_rating _) as [overall|e].
  2: { cbn. by rewrite !app_nil_r, <- !(assoc_L (++)). }
  rewrite rated_ok_bind, result_bind_ok. cbv beta iota zeta.
  match goal with
  | |- context [rated ?r ≫= _] => destruct r as [message_lines|e]
  end.
  2: { cbn. by rewrite !app_nil_r, <- !(assoc_L (++)). }
  rewrite rated_ok_bind, result_bind_ok.
  destruct (py_join newline message_lines) as [message|e].
  2: { cbn. by rewrite !app_nil_r, <- !(assoc_L (++)). }
  rewrite rated_ok_bind, result_bind_ok.
  cbn [fst snd]. by rewrite !app_nil_r, <- !(assoc_L (++)).
Qed.


Lemma forecast_error_daily_task marine weather forecast image_data e :
  compute_metservice_rating forecast = Raise e →
  daily_task marine weather forecast image_data = Raise e.
Proof.
  intros Hmet. unfold daily_task.
  destruct (compute_openmeteo_rating marine weather). by rewrite Hmet.
Qed.

Lemma requests_app l1 l2 : requests (l1 ++ l2) = requests l1 ++ requests l2.
Proof. apply omap_app. Qed.

Lemma mails_app l1 l2 : mails (l1 ++ l2) = mails l1 ++ mails l2.
Proof. apply omap_app. Qed.

(** How a run ends: with the exception of the rating code when
    [daily_task], on the fetched payloads, raises one; with the
    [ValueError] of the port text when that is not an integer;
    normally otherwise, whatever the SMTP session did. *)
Theorem daily_task_io_ending :
  daily_task_io.2
  = match daily_task (json_payload marine_url) (json_payload weather_url)
            (json_payload metservice_url) (image_payload CAWTHRON_EYE_URL) with
    | Raise e => Escaped (RatingError e)
    | Ok _ =>
        match int_of_str (default "587" (getenv "SMTP_PORT")) with
        | Some _ => Done ()
        | None => Escaped (PortError (default "587" (getenv "SMTP_PORT")))
        end
    end.
Proof.
  destruct daily_task_io_run as (lm & lw & lf & li & _ & _ & _ & _ & ->).
  destruct (compute_metservice_rating (json_payload metservice_url))
    as [rating|e] eqn:Hmet.
  2: { by rewrite (forecast_error_daily_task _ _ _ _ _ Hmet). }
  destruct (daily_task _ _ _ _) as [[subject message]|e]; [|done].
  cbn [snd].
  destruct (send_email_run subject message) as (_ & _ & Hbad & Hgood).
  destruct (int_of_str _) as [port|].
  - by apply Hgood.
  - by rewrite Hbad.
Qed.

Lemma daily_task_io_mails_eq :
  mails daily_task_io.1
  = match daily_task (json_payload marine_url) (json_payload weather_url)
            (json_payload metservice_url) (image_payload CAWTHRON_EYE_URL) with
    | Ok (subject, message) => option_list (outgoing subject message)
    | Raise _ => []
    end.
Proof.
  destruct daily_task_io_run
    as (lm & lw & lf & li & Hm & Hw & Hf & Hi & ->).
  destruct (fetch_json_run marine_url) as (? & Hm' & _ & Em).
  destruct (fetch_json_run weather_url) as (? & Hw' & _ & Ew).
  destruct (fetch_json_run metservice_url) as (? & Hf' & _ & Ef).
  destruct (fetch_image_run CAWTHRON_EYE_URL) as (? & Hi' & _ & Ei).
  rewrite Hm in Hm'. rewrite Hw in Hw'. rewrite Hf in Hf'. rewrite Hi in Hi'.
  injection Hm' as <-. injection Hw' as <-. injection Hf' as <-.
  injection Hi' as <-.
  destruct (compute_metservice_rating (json_payload metservice_url))
    as [rating|e] eqn:Hmet.
  2: { rewrite (forecast_error_daily_task _ _ _ _ _ Hmet). cbn [fst].
       by rewrite !mails_app, Em, Ew, Ef. }
  destruct (daily_task _ _ _ _) as [[subject message]|e]; cbn [fst].
  - rewrite !mails_app, Em, Ew, Ef, Ei.
    by destruct (send_email_run subject message) as (_ & -> & _).
  - by rewrite !mails_app, Em, Ew, Ef, Ei.
Qed.

(** A run attempts at most one mail: the message [daily_task]
    composes from the fetched payloads, when the port text is an
    integer and the three credentials are set; none when the rating
    code raises. *)
Theorem daily_task_io_mails :
  mails daily_task_io.1
  = match daily_task (json_payload marine_url) (json_payload weather_url)
            (json_payload metservice_url) (image_payload CAWTHRON_EYE_URL) with
    | Ok (subject, message) => option_list (outgoing subject message)
    | Raise _ => []
    end.
Proof. apply daily_task_io_mails_eq. Qed.

(** A run requests the marine, the weather and the forecast URL, in
    this order, and then the CawthronEye image only if the
    forecast-text rating returned; the Kutai and Tascam webcams are
    never requested. *)
Theorem daily_task_io_requests :
  (requests daily_task_io.1
   = [marine_url; weather_url; metservice_url]
     ++ match compute_metservice_rating (json_payload metservice_url) with
        | Ok _ => [CAWTHRON_EYE_URL]
        | Raise _ => []
        end)
  ∧ (KUTAI_CAM_URL ∉ requests daily_task_io.1)
  ∧ (TASCAM_URL ∉ requests daily_task_io.1).
Proof.
  assert (Hreq : requests daily_task_io.1
    = [marine_url; weather_url; metservice_url]
      ++ match compute_metservice_rating (json_payload metservice_url) with
         | Ok _ => [CAWTHRON_EYE_URL]
         | Raise _ => []
         end).
  { destruct daily_task_io_run
      as (lm & lw & lf & li & Hm & Hw & Hf & Hi & ->).
    destruct (fetch_json_run marine_url) as (? & Hm' & Em & _).
    destruct (fetch_json_run weather_url) as (? & Hw' & Ew & _).
    destruct (fetch_json_run metservice_url) as (? & Hf' & Ef & _).
    destruct (fetch_image_run CAWTHRON_EYE_URL) as (? & Hi' & Ei & _).
    rewrite Hm in Hm'. rewrite Hw in Hw'. rewrite Hf in Hf'. rewrite Hi in Hi'.
    injection Hm' as <-. injection Hw' as <-. injection Hf' as <-.
    injection Hi' as <-.
    destruct (compute_metservice_rating (json_payload metservice_url))
      as [rating|e] eqn:Hmet.
    2: { cbn [fst]. by rewrite !requests_app, Em, Ew, Ef. }
    destruct (daily_task _ _ _ _) as [[subject message]|e]; cbn [fst].
    - rewrite !requests_app, Em, Ew, Ef, Ei.
      by destruct (send_email_run subject message) as (-> & _).
    - by rewrite !requests_app, Em, Ew, Ef, Ei. }
  split; [done|]. rewrite Hreq.
  assert (Hurls : ∀ url,
    url ∈ [marine_url; weather_url; metservice_url]
          ++ match compute_metservice_rating (json_payload metservice_url) with
             | Ok _ => [CAWTHRON_EYE_URL]
             | Raise _ => []
             end →
    url ≠ KUTAI_CAM_URL ∧ url ≠ TASCAM_URL).
  { intros url Hin. apply elem_of_app in Hin as [Hin|Hin].
    - repeat (apply elem_of_cons in Hin as [->|Hin]; [by split|]).
      by apply elem_of_nil in Hin.
    - destruct (compute_metservice_rating _); [|by apply elem_of_nil in Hin].
      apply list_elem_of_singleton in Hin as ->. by split. }
  split; intros Hin; by destruct (Hurls _ Hin).
Qed.

(** [send_email] raises only for a port text that is not an integer,
    and then before doing anything; a mail is attempted exactly when
    the port text is an integer and user, password and recipient are
    set and not empty; there is at most one attempt and no HTTP
    request.  With an integer port, a missing or empty credential
    gives the one printed line "Email credentials not configured." and
    nothing else; with the three credentials set, the mail is
    attempted with the server (default smtp.gmail.com), the port, the
    credentials, the subject and the message, and an exception of the
    SMTP session is caught and printed after "Email sending failed: ",
    nothing being printed when the session works. *)
Theorem send_email_outcome subject message :
  let port_text := default "587" (getenv "SMTP_PORT") in
  let log := (send_email subject message).1 in
  let credentials :=
    [getenv "EMAIL_USER"; getenv "EMAIL_PASS"; getenv "EMAIL_TO"] in
  let attempt port :=
    {| mail_server := default "smtp.gmail.com" (getenv "SMTP_SERVER");
       mail_port := port;
       mail_user := default "" (getenv "EMAIL_USER");
       mail_password := default "" (getenv "EMAIL_PASS");
       mail_to := default "" (getenv "EMAIL_TO");
       mail_subject := subject; mail_body := message |} in
  ((send_email subject message).2 = Done () ↔ is_Some (int_of_str port_text))
  ∧ (int_of_str port_text = None →
     send_email subject message = ([], Escaped (PortError port_text)))
  ∧ ((∃ m, MailAttempt m ∈ log)
     ↔ is_Some (int_of_str port_text)
       ∧ configured (getenv "EMAIL_USER") = true
       ∧ configured (getenv "EMAIL_PASS") = true
       ∧ configured (getenv "EMAIL_TO") = true)
  ∧ (length (mails log) ≤ 1)%nat
  ∧ requests log = []
  ∧ (is_Some (int_of_str port_text) →
     forallb configured credentials = false →
     send_email subject message
     = ([Printed "Email credentials not configured."], Done ()))
  ∧ (∀ port,
       int_of_str port_text = Some port →
       forallb configured credentials = true →
       smtp_error (attempt port) = None →
       send_email subject message = ([MailAttempt (attempt port)], Done ()))
  ∧ (∀ port exc,
       int_of_str port_text = Some port →
       forallb configured credentials = true →
       smtp_error (attempt port) = Some exc →
       send_email subject message
       = ([MailAttempt (attempt port);
           Printed ("Email sending failed: " +:+ exc)], Done ())).
Proof.
  intros port_text log credentials attempt.
  assert (Hlines :
    (is_Some (int_of_str port_text) →
     forallb configured credentials = false →
     send_email subject message
     = ([Printed "Email credentials not configured."], Done ()))
    ∧ (∀ port,
         int_of_str port_text = Some port →
         forallb configured credentials = true →
         smtp_error (attempt port) = None →
         send_email subject message = ([MailAttempt (attempt port)], Done ()))
    ∧ (∀ port exc,
         int_of_str port_text = Some port →
         forallb configured credentials = true →
         smtp_error (attempt port) = Some exc →
         send_email subject message
         = ([MailAttempt (attempt port);
             Printed ("Email sending failed: " +:+ exc)], Done ()))).
  { subst port_text credentials attempt. unfold send_email. split_and!.
    - intros [port Hport] Hmissing. rewrite Hport.
      cbn [mbind io_bind mret io_ret]. by rewrite Hmissing.
    - intros port Hport Hset Hsmtp. rewrite Hport.
      cbn [mbind io_bind mret io_ret]. rewrite Hset. cbn [negb].
      cbv beta zeta. by rewrite Hsmtp.
    - intros port exc Hport Hset Hsmtp. rewrite Hport.
      cbn [mbind io_bind mret io_ret]. rewrite Hset. cbn [negb].
      cbv beta zeta. by rewrite Hsmtp. }
  enough (Hrun :
    ((send_email subject message).2 = Done ()
     ↔ is_Some (int_of_str port_text))
    ∧ (int_of_str port_text = None →
       send_email subject message = ([], Escaped (PortError port_text)))
    ∧ ((∃ m, MailAttempt m ∈ log)
       ↔ is_Some (int_of_str port_text)
         ∧ configured (getenv "EMAIL_USER") = true
         ∧ configured (getenv "EMAIL_PASS") = true
         ∧ configured (getenv "EMAIL_TO") = true)
    ∧ (length (mails log) ≤ 1)%nat
    ∧ requests log = []).
  { destruct Hrun as (? & ? & ? & ? & ?), Hlines as (? & ? & ?).
    by split_and!. }
  clear Hlines.
  subst port_text log credentials attempt. unfold send_email.
  destruct (int_of_str _) as [port|].
  2: { cbn. split_and!; try done; [|lia].
       split; [by intros [m Hm%elem_of_nil]|by intros [[] _]]. }
  cbn [mbind io_bind mret io_ret forallb].
  destruct (configured (getenv "EMAIL_USER")),
    (configured (getenv "EMAIL_PASS")), (configured (getenv "EMAIL_TO"));
    cbn [negb andb];
    try (split_and!; [done|done| |simpl; lia|done];
         split; [intros [m Hm]; by apply list_elem_of_singleton in Hm
                |intros (_ & ? & ? & ?); discriminate]).
  destruct (smtp_error _) as [exc|]; cbn;
    (split_and!; [done|done| |lia|done]);
    (split; [done|intros _; eexists; apply elem_of_cons; by left]).
Qed.

(** [fetch_json] and [fetch_image] make one request and never raise.
    When the server answers and the status check passes, [fetch_json]
    returns the parsed body and [fetch_image] the content of the
    response, and nothing is printed.  When the request raises, the
    status check raises or, for [fetch_json], the body does not parse,
    they return [None] and print one line: "Failed to fetch " (for
    [fetch_image], "Failed to fetch image "), the URL, ": " and the
    text of that exception. *)
Theorem fetch_outcomes url :
  let failed_json why : io value :=
    ([HttpGet url; Printed ("Failed to fetch " +:+ url +:+ ": " +:+ why)],
     Done VNone) in
  let failed_image why : io (option (list Byte.byte)) :=
    ([HttpGet url;
      Printed ("Failed to fetch image " +:+ url +:+ ": " +:+ why)],
     Done None) in
  (∀ why, http_get url = Unreachable why →
     fetch_json url = failed_json why ∧ fetch_image url = failed_image why)
  ∧ (∀ resp why,
       http_get url = Answered resp → raise_for_status resp = Some why →
       fetch_json url = failed_json why ∧ fetch_image url = failed_image why)
  ∧ (∀ resp,
       http_get url = Answered resp → raise_for_status resp = None →
       fetch_image url = ([HttpGet url], Done (Some (content resp)))
       ∧ (∀ v, response_json resp = inr v →
            fetch_json url = ([HttpGet url], Done v))
       ∧ (∀ why, response_json resp = inl why →
            fetch_json url = failed_json why)).
Proof.
  intros failed_json failed_image. subst failed_json failed_image.
  unfold fetch_json, fetch_image, checked_get. split_and!.
  - by intros why ->.
  - by intros resp why -> ->.
  - intros resp -> ->. split_and!; [done|by intros v ->|by intros why ->].
Qed.

(** When no request succeeds, the run still composes and mails a
    message: all four ratings are 0 and the reasons are the parse
    failure of the marine payload and "No MetService data". *)
Theorem failed_fetches_still_mail :
  (∀ url, ∃ why, checked_get url = inl why) →
  let message :=
    String.concat newline
      ["Open-Meteo rating: 0"; "MetService rating: 0";
       "CawthronEye rating: 0"; "Overall rating: 0"; "Reasons:";
       "Failed to parse data: "
         +:+ exc_message (TypeError (OpSubscript (IKey "daily")) VNone);
       "No MetService data"] in
  daily_task (json_payload marine_url) (json_payload weather_url)
    (json_payload metservice_url) (image_payload CAWTHRON_EYE_URL)
  = Ok ("Spearfishing update", message)
  ∧ mails daily_task_io.1
    = option_list (outgoing "Spearfishing update" message).
Proof.
  intros Hdown message.
  assert (Hjson : ∀ url, json_payload url = VNone).
  { intros url. unfold json_payload. by destruct (Hdown url) as [why ->]. }
  assert (Himage : ∀ url, image_payload url = None).
  { intros url. unfold image_payload. by destruct (Hdown url) as [why ->]. }
  assert (Htask : daily_task (json_payload marine_url)
            (json_payload weather_url) (json_payload metservice_url)
            (image_payload CAWTHRON_EYE_URL)
          = Ok ("Spearfishing update", message)).
  { rewrite !Hjson, Himage. by vm_compute. }
  split; [done|]. by rewrite daily_task_io_mails_eq, Htask.
Qed.

End RunResults.

(** * Worked inputs

    The results above at concrete payloads, run on [bitmap_platform]. *)
#[local] Existing Instance bitmap_platform.

(** A whole run: two-metre swell, light wind, little rain, a fine
    forecast and a bright webcam image. *)
Example daily_task_fine_day :
  daily_task (marine_payload (VInt 2)) (weather_payload (VInt 5) (VInt 20))
    (forecast_payload (<[ "forecast" := VStr "Fine day" ]>
                       {[ "forecastWord" := VStr "Fine" ]}))
    (Some [Byte.xc8])
  = Ok ("Spearfishing update",
        String.concat newline
          ["Open-Meteo rating: 60"; "MetService rating: 90";
           "CawthronEye rating: 90"; "Overall rating: 80";
           "Reasons:"; "Swell 2 m"; "Fine day"]).
Proof. by vm_compute. Qed.

(** The literals 1.0 and 7.7 against integer readings: over 1.0 means
    at least 2, over 7.7 means at least 8. *)
Example py_gt_integer_readings n :
  py_gt (VInt n) (NFloat float_1_0) = Ok (1 <? n)
  ∧ py_gt (VInt n) (NFloat float_7_7) = Ok (7 <? n).
Proof.
  unfold py_gt, num_gt, Zcompare_float, float_1_0, float_7_7. simpl.
  change (2 ^ (- (-52))) with 4503599627370496.
  change (2 ^ (- (-50))) with 1125899906842624.
  split; f_equal.
  - destruct (Z.ltb_spec 1 n), (Z.compare_spec (n * 4503599627370496)
      4503599627370496); done || lia.
  - destruct (Z.ltb_spec 7 n), (Z.compare_spec (n * 1125899906842624)
      8669429282688205); done || lia.
Qed.

(** The mantissa of [float_7_7] is the binary64 number nearest to
    77/10: it is within half a unit in the last place. *)
Example float_7_7_nearest :
  2 * Z.abs (10 * 8669429282688205 - 77 * 2 ^ 50) ≤ 10.
Proof. by vm_compute. Qed.

(** C1, the claim as stated fails: with a two-metre swell and an absent
    weather payload the reasons are the swell reason and the
    parse-failure reason, two elements and not one. *)
Lemma parse_failure_two_reasons :
  parse_failure (marine_payload (VInt 2)) VNone
  ∧ compute_openmeteo_rating (marine_payload (VInt 2)) VNone
    = (0, [VStr "Swell 2 m"; VStr "Failed to parse data: TypeError"])
  ∧ length (compute_openmeteo_rating (marine_payload (VInt 2)) VNone).2 ≠ 1%nat.
Proof.
  split_and!; [|by vm_compute|by vm_compute].
  right; left. by eexists.
Qed.

Lemma parse_failure_zero_score_witness :
  parse_failure (marine_payload (VInt 2)) VNone
  ∧ (compute_openmeteo_rating (marine_payload (VInt 2)) VNone).1 = 0
  ∧ (compute_openmeteo_rating (marine_payload (VInt 2)) VNone).2
    = [VStr "Swell 2 m"; VStr "Failed to parse data: TypeError"].
Proof.
  assert (Hfail : parse_failure (marine_payload (VInt 2)) VNone).
  { right; left. eexists. reflexivity. }
  split; [exact Hfail|].
  destruct (parse_failure_zero_score (marine_payload (VInt 2)) VNone Hfail)
    as (Hscore & _ & Hnotes & _).
  split; [exact Hscore|].
  exact (Hnotes (VInt 2) true _ eq_refl eq_refl).
Defined.

Lemma overall_rating_truncates_witness :
  (0 ≤ 90 ≤ 100 ∧ 0 ≤ 60 ≤ 100 ∧ 0 ≤ 41 ≤ 100)
  ∧ overall_rating [90; 60; 41] = Ok ((90 + 60 + 41) `quot` 3)
  ∧ overall_rating [90; 60; 40] = Ok 63
  ∧ overall_rating [90; 60; 41] = Ok 63.
Proof.
  split; [lia|]. apply (overall_rating_truncates 90 60 41); lia.
Defined.

Lemma daily_task_message_witness :
  let forecast := forecast_payload (<[ "forecast" := VStr "Fine day" ]>
                                    {[ "forecastWord" := VStr "Fine" ]}) in
  let marine := marine_payload (VInt 2) in
  let weather := weather_payload (VInt 5) (VInt 20) in
  let image_data := Some [Byte.xc8] in
  compute_metservice_rating forecast = Ok (90, VStr <$> ["Fine day"])
  ∧ let open_rating := (compute_openmeteo_rating marine weather).1 in
    let cam_rating := compute_image_rating image_data in
    let overall := (open_rating + 90 + cam_rating) `quot` 3 in
    ∃ open_notes,
      (compute_openmeteo_rating marine weather).2 = VStr <$> open_notes
      ∧ overall_rating [open_rating; 90; cam_rating] = Ok overall
      ∧ daily_task marine weather forecast image_data
        = Ok ("Spearfishing update",
              String.concat newline
                (["Open-Meteo rating: " +:+ pretty open_rating;
                  "MetService rating: " +:+ pretty 90;
                  "CawthronEye rating: " +:+ pretty cam_rating;
                  "Overall rating: " +:+ pretty overall]
                 ++ reasons_block (open_notes ++ ["Fine day"]))).
Proof.
  intros forecast marine weather image_data.
  assert (Hmet : compute_metservice_rating forecast
                 = Ok (90, VStr <$> ["Fine day"])) by (vm_compute; reflexivity).
  split; [exact Hmet|].
  exact (daily_task_message marine weather forecast image_data 90
           ["Fine day"] Hmet).
Defined.

Lemma all_conditions_triggered_witness :
  let marine := marine_payload (VInt 2) in
  let weather := weather_payload (VInt 8) (VInt 51) in
  (first_wave_height marine = Ok (VInt 2)
   ∧ py_gt (VInt 2) (NFloat float_1_0) = Ok true
   ∧ first_wind_speed weather = Ok (VInt 8)
   ∧ py_gt (VInt 8) (NFloat float_7_7) = Ok true
   ∧ first_precipitation weather = Ok (VInt 51)
   ∧ py_gt (VInt 51) (NInt 50) = Ok true)
  ∧ compute_openmeteo_rating marine weather
    = (Z.max 0 (100 - 40 - 30 - 30),
       [VStr ("Swell " +:+ py_format (VInt 2) +:+ " m");
        VStr ("Wind " +:+ py_format (VInt 8) +:+ " m/s");
        VStr "Chance of rain"])
  ∧ Z.max 0 (100 - 40 - 30 - 30) = 0.
Proof.
  intros marine weather.
  split; [split_and!; vm_compute; reflexivity|].
  apply (all_conditions_triggered marine weather (VInt 2) (VInt 8) (VInt 51));
    vm_compute; reflexivity.
Defined.

Lemma wave_penalty_exactly_40_witness :
  let marine := marine_payload (VInt 2) in
  let calm := marine_payload (VInt 1) in
  let weather := weather_payload (VInt 8) (VInt 20) in
  (first_wave_height marine = Ok (VInt 2)
   ∧ py_gt (VInt 2) (NFloat float_1_0) = Ok true
   ∧ first_wave_height calm = Ok (VInt 1)
   ∧ py_gt (VInt 1) (NFloat float_1_0) = Ok false
   ∧ first_wind_speed weather = Ok (VInt 8)
   ∧ py_gt (VInt 8) (NFloat float_7_7) = Ok true
   ∧ first_precipitation weather = Ok (VInt 20)
   ∧ py_gt (VInt 20) (NInt 50) = Ok false)
  ∧ ((compute_openmeteo_rating marine weather).1
       = (compute_openmeteo_rating calm weather).1 - 40 ↔ true = true)
  ∧ ((compute_openmeteo_rating marine weather).1
       = (compute_openmeteo_rating calm weather).1 ↔ true = false)
  ∧ (compute_openmeteo_rating calm weather).1
    = 100 - penalty 30 true - penalty 30 false.
Proof.
  intros marine calm weather.
  split; [split_and!; vm_compute; reflexivity|].
  apply (wave_penalty_exactly_40 marine calm weather (VInt 2) true (VInt 1)
           (VInt 8) true (VInt 20) false); vm_compute; reflexivity.
Defined.

Lemma image_rating_step_witness :
  ([Byte.x96] ≠ []
   ∧ gray_pixels [Byte.x96] = Ok [150]
   ∧ [150] ≠ []
   ∧ Z.of_nat (length [150]) < 2 ^ 45)
  ∧ compute_image_rating (Some [Byte.x96]) = 70.
Proof.
  assert (Hdata : [Byte.x96] ≠ []) by (intros Hnil; discriminate Hnil).
  assert (Hpixels : gray_pixels [Byte.x96] = Ok [150]) by reflexivity.
  assert (Hne : [150] ≠ []) by (intros Hnil; discriminate Hnil).
  assert (Hlen : Z.of_nat (length [150]) < 2 ^ 45) by (vm_compute; reflexivity).
  split; [by split_and!|].
  destruct (image_rating_step [Byte.x96] [150] Hdata Hpixels Hne Hlen)
    as (_ & _ & _ & Hexact & _).
  apply Hexact. reflexivity.
Defined.

Lemma keyword_precedence_witness :
  let day : gmap string value := {[ "forecastWord" := VStr "Rain, then sunny" ]} in
  let forecast := forecast_payload day in
  (first_day forecast day
   ∧ day !! "forecastWord" = Some (VStr "Rain, then sunny"))
  ∧ ∃ notes, compute_metservice_rating forecast = Ok (30, notes).
Proof.
  intros day forecast.
  assert (Hday : first_day forecast day).
  { eexists _, []. split; reflexivity. }
  assert (Hword : day !! "forecastWord" = Some (VStr "Rain, then sunny"))
    by reflexivity.
  split; [by split|].
  destruct (keyword_precedence forecast day _ Hday Hword) as (Hrain & _).
  apply Hrain. reflexivity.
Defined.

Lemma missing_forecast_text_blank_line_witness :
  let day : gmap string value := {[ "forecastWord" := VStr "Fine" ]} in
  let forecast := forecast_payload day in
  let marine := marine_payload (VInt 2) in
  let weather := weather_payload (VInt 5) (VInt 20) in
  (first_day forecast day
   ∧ day !! "forecastWord" = Some (VStr "Fine")
   ∧ "Fine" ≠ ""
   ∧ day !! "forecast" = None)
  ∧ (∃ r, compute_metservice_rating forecast = Ok (r, [VStr ""]))
  ∧ ∃ ratings open_notes,
      length ratings = 4%nat
      ∧ (compute_openmeteo_rating marine weather).2 = VStr <$> open_notes
      ∧ daily_task marine weather forecast (Some [Byte.xc8])
        = Ok ("Spearfishing update",
              String.concat newline
                (ratings ++ "Reasons:" :: open_notes ++ [""])).
Proof.
  intros day forecast marine weather.
  assert (Hday : first_day forecast day).
  { eexists _, []. split; reflexivity. }
  assert (Hword : day !! "forecastWord" = Some (VStr "Fine")) by reflexivity.
  assert (Hne : "Fine" ≠ "") by (intros Hnil; discriminate Hnil).
  assert (Hnote : day !! "forecast" = None) by reflexivity.
  split; [by split_and!|].
  exact (missing_forecast_text_blank_line marine weather forecast
           (Some [Byte.xc8]) day "Fine" Hday Hword Hne Hnote).
Defined.

(** The run of C10 in full: the message ends with an empty line. *)
Example daily_task_blank_reason :
  daily_task (marine_payload (VInt 2)) (weather_payload (VInt 5) (VInt 20))
    (forecast_payload {[ "forecastWord" := VStr "Fine" ]}) (Some [Byte.xc8])
  = Ok ("Spearfishing update",
        String.concat newline
          ["Open-Meteo rating: 60"; "MetService rating: 90";
           "CawthronEye rating: 90"; "Overall rating: 80";
           "Reasons:"; "Swell 2 m"; ""]).
Proof. by vm_compute. Qed.

(** ** Further results at concrete payloads *)
#[local] Existing Instance offline_world.

Lemma forecast_text_reported_iff_word_witness :
  let day : gmap string value := {[ "forecast" := VStr "Settled weather" ]} in
  let forecast := forecast_payload day in
  (first_day forecast day
   ∧ from_option id (VStr "") (day !! "forecastWord") = VStr "")
  ∧ ∃ r notes,
      compute_metservice_rating forecast = Ok (r, notes)
      ∧ ("" = "" → r = 60 ∧ notes = [])
      ∧ ("" ≠ "" → notes = [from_option id (VStr "") (day !! "forecast")]).
Proof.
  intros day forecast.
  assert (Hday : first_day forecast day).
  { eexists _, []. split; reflexivity. }
  assert (Hword : from_option id (VStr "") (day !! "forecastWord") = VStr "")
    by reflexivity.
  split; [by split|].
  exact (forecast_text_reported_iff_word forecast day "" Hday Hword).
Defined.

Lemma keyword_case_insensitive_witness :
  let day : gmap string value := {[ "forecastWord" := VStr "Heavy RAIN" ]} in
  let forecast := forecast_payload day in
  (first_day forecast day
   ∧ day !! "forecastWord" = Some (VStr "Heavy RAIN")
   ∧ str_contains "RAIN" "Heavy RAIN" = true
   ∧ (str_lower "RAIN" = "rain" ∨ str_lower "RAIN" = "shower"))
  ∧ ∃ notes, compute_metservice_rating forecast = Ok (30, notes).
Proof.
  intros day forecast.
  assert (Hday : first_day forecast day).
  { eexists _, []. split; reflexivity. }
  assert (Hword : day !! "forecastWord" = Some (VStr "Heavy RAIN"))
    by reflexivity.
  assert (Hk : str_contains "RAIN" "Heavy RAIN" = true) by reflexivity.
  assert (Hlow : str_lower "RAIN" = "rain" ∨ str_lower "RAIN" = "shower")
    by (left; reflexivity).
  split; [by split_and!|].
  exact (keyword_case_insensitive forecast day _ "RAIN" Hday Hword Hk Hlow).
Defined.

Lemma non_string_forecast_text_escapes_witness :
  let day : gmap string value :=
    <[ "forecast" := VNone ]> {[ "forecastWord" := VStr "Fine" ]} in
  let forecast := forecast_payload day in
  let marine := marine_payload (VInt 1) in
  let weather := weather_payload (VInt 5) (VInt 20) in
  (first_day forecast day
   ∧ day !! "forecastWord" = Some (VStr "Fine")
   ∧ "Fine" ≠ ""
   ∧ day !! "forecast" = Some VNone
   ∧ ∀ s, VNone ≠ VStr s)
  ∧ compute_metservice_rating forecast
    = Ok (keyword_rating (str_lower "Fine"), [VNone])
  ∧ daily_task marine weather forecast None = Raise (TypeError OpJoin VNone).
Proof.
  intros day forecast marine weather.
  assert (Hday : first_day forecast day).
  { eexists _, []. split; reflexivity. }
  assert (Hword : day !! "forecastWord" = Some (VStr "Fine")) by reflexivity.
  assert (Hne : "Fine" ≠ "") by (intros Hnil; discriminate Hnil).
  assert (Hnote : day !! "forecast" = Some VNone) by reflexivity.
  assert (Hnot : ∀ s, VNone ≠ VStr s) by (intros s Hs; discriminate Hs).
  split; [by split_and!|].
  exact (non_string_forecast_text_escapes marine weather forecast None day
           "Fine" VNone Hday Hword Hne Hnote Hnot).
Defined.

Lemma openmeteo_integer_readings_witness :
  let marine := marine_payload (VInt 2) in
  let weather := weather_payload (VInt 7) (VInt 51) in
  (first_wave_height marine = Ok (VInt 2)
   ∧ first_wind_speed weather = Ok (VInt 7)
   ∧ first_precipitation weather = Ok (VInt 51))
  ∧ (compute_openmeteo_rating marine weather).1
    = 100 - (if 2 <=? 2 then 40 else 0) - (if 8 <=? 7 then 30 else 0)
          - (if 51 <=? 51 then 30 else 0).
Proof.
  intros marine weather.
  split; [split_and!; vm_compute; reflexivity|].
  apply (openmeteo_integer_readings marine weather 2 7 51);
    vm_compute; reflexivity.
Defined.

Lemma openmeteo_integer_monotone_witness :
  let marine := marine_payload (VInt 1) in
  let weather := weather_payload (VInt 7) (VInt 50) in
  let marine' := marine_payload (VInt 2) in
  let weather' := weather_payload (VInt 7) (VInt 60) in
  (first_wave_height marine = Ok (VInt 1)
   ∧ first_wind_speed weather = Ok (VInt 7)
   ∧ first_precipitation weather = Ok (VInt 50)
   ∧ first_wave_height marine' = Ok (VInt 2)
   ∧ first_wind_speed weather' = Ok (VInt 7)
   ∧ first_precipitation weather' = Ok (VInt 60)
   ∧ 1 ≤ 2 ∧ 7 ≤ 7 ∧ 50 ≤ 60)
  ∧ (compute_openmeteo_rating marine' weather').1
    ≤ (compute_openmeteo_rating marine weather).1.
Proof.
  intros marine weather marine' weather'.
  split; [split_and!; try lia; vm_compute; reflexivity|].
  apply (openmeteo_integer_monotone marine weather marine' weather'
           1 7 50 2 7 60); try lia; vm_compute; reflexivity.
Defined.

Lemma openmeteo_boolean_or_nan_readings_witness :
  let marine := marine_payload (VBool true) in
  let weather := weather_payload (VFloat S754_nan) (VBool false) in
  (first_wave_height marine = Ok (VBool true) ∧ never_over (VBool true)
   ∧ first_wind_speed weather = Ok (VFloat S754_nan)
   ∧ never_over (VFloat S754_nan)
   ∧ first_precipitation weather = Ok (VBool false)
   ∧ never_over (VBool false))
  ∧ compute_openmeteo_rating marine weather = (100, []).
Proof.
  intros marine weather.
  assert (Nh : never_over (VBool true)) by (left; eexists; reflexivity).
  assert (Nw : never_over (VFloat S754_nan)) by (right; reflexivity).
  assert (Np : never_over (VBool false)) by (left; eexists; reflexivity).
  assert (Hh : first_wave_height marine = Ok (VBool true)) by reflexivity.
  assert (Hw : first_wind_speed weather = Ok (VFloat S754_nan))
    by reflexivity.
  assert (Hp : first_precipitation weather = Ok (VBool false)) by reflexivity.
  split; [by split_and!|].
  exact (openmeteo_boolean_or_nan_readings marine weather _ _ _
           Hh Nh Hw Nw Hp Np).
Defined.

Lemma openmeteo_reads_first_values_witness :
  let dd : gmap string value :=
    {[ "wave_height_max" := VList [VInt 1; VInt 4; VInt 3] ]} in
  let dm : gmap string value :=
    <[ "daily" := VDict dd ]> {[ "latitude" := VInt (-42) ]} in
  let dh : gmap string value :=
    <[ "wind_speed_10m" := VList [VInt 5; VInt 30] ]>
    {[ "precipitation_probability" := VList [VInt 20; VInt 90] ]} in
  let dw : gmap string value := {[ "hourly" := VDict dh ]} in
  (dm !! "daily" = Some (VDict dd)
   ∧ dd !! "wave_height_max" = Some (VList (VInt 1 :: [VInt 4; VInt 3]))
   ∧ dw !! "hourly" = Some (VDict dh)
   ∧ dh !! "wind_speed_10m" = Some (VList (VInt 5 :: [VInt 30]))
   ∧ dh !! "precipitation_probability" = Some (VList (VInt 20 :: [VInt 90])))
  ∧ compute_openmeteo_rating (VDict dm) (VDict dw)
    = compute_openmeteo_rating (marine_payload (VInt 1))
        (weather_payload (VInt 5) (VInt 20)).
Proof.
  intros dd dm dh dw.
  split; [split_and!; reflexivity|].
  apply (openmeteo_reads_first_values dm dd dw dh (VInt 1) [VInt 4; VInt 3]
           (VInt 5) [VInt 30] (VInt 20) [VInt 90]); reflexivity.
Defined.

Lemma image_rating_monotone_witness :
  ([Byte.x50] ≠ [] ∧ gray_pixels [Byte.x50] = Ok [80] ∧ [80] ≠ []
   ∧ Z.of_nat (length [80]) < 2 ^ 45
   ∧ [Byte.x96; Byte.x98] ≠ []
   ∧ gray_pixels [Byte.x96; Byte.x98] = Ok [150; 152] ∧ [150; 152] ≠ []
   ∧ Z.of_nat (length [150; 152]) < 2 ^ 45
   ∧ Qle (mean_intensity [80]) (mean_intensity [150; 152]))
  ∧ compute_image_rating (Some [Byte.x50])
    ≤ compute_image_rating (Some [Byte.x96; Byte.x98]).
Proof.
  assert (Hd1 : [Byte.x50] ≠ []) by (intros Hnil; discriminate Hnil).
  assert (Hp1 : gray_pixels [Byte.x50] = Ok [80]) by reflexivity.
  assert (Hn1 : [80] ≠ []) by (intros Hnil; discriminate Hnil).
  assert (Hl1 : Z.of_nat (length [80]) < 2 ^ 45) by (vm_compute; reflexivity).
  assert (Hd2 : [Byte.x96; Byte.x98] ≠ []) by (intros Hnil; discriminate Hnil).
  assert (Hp2 : gray_pixels [Byte.x96; Byte.x98] = Ok [150; 152])
    by reflexivity.
  assert (Hn2 : [150; 152] ≠ []) by (intros Hnil; discriminate Hnil).
  assert (Hl2 : Z.of_nat (length [150; 152]) < 2 ^ 45)
    by (vm_compute; reflexivity).
  assert (Hmean : Qle (mean_intensity [80]) (mean_intensity [150; 152]))
    by (vm_compute; discriminate).
  split; [by split_and!|].
  exact (image_rating_monotone _ _ _ _ Hd1 Hp1 Hn1 Hl1 Hd2 Hp2 Hn2 Hl2 Hmean).
Defined.

Lemma image_rating_zero_iff_witness :
  (∀ bytes pixels, Some [Byte.x50] = Some bytes →
     gray_pixels bytes = Ok pixels → Z.of_nat (length pixels) < 2 ^ 45)
  ∧ (compute_image_rating (Some [Byte.x50]) = 0
     ↔ Some [Byte.x50] = None ∨ Some [Byte.x50] = Some []
       ∨ ∃ bytes, Some [Byte.x50] = Some bytes
           ∧ (raises (gray_pixels bytes) ∨ gray_pixels bytes = Ok []))
  ∧ (∀ bytes pixels,
       Some [Byte.x50] = Some bytes → bytes ≠ [] →
       gray_pixels bytes = Ok pixels → pixels ≠ [] →
       compute_image_rating (Some [Byte.x50]) = 40
       ∨ compute_image_rating (Some [Byte.x50]) = 70
       ∨ compute_image_rating (Some [Byte.x50]) = 90).
Proof.
  assert (Hsize : ∀ bytes pixels, Some [Byte.x50] = Some bytes →
     gray_pixels bytes = Ok pixels → Z.of_nat (length pixels) < 2 ^ 45).
  { intros bytes pixels Hbytes Hpixels. injection Hbytes as <-.
    injection Hpixels as <-. vm_compute. reflexivity. }
  split; [exact Hsize|].
  exact (image_rating_zero_iff (Some [Byte.x50]) Hsize).
Defined.

Lemma overall_rating_between_witness :
  (0 ≤ 60 ≤ 100 ∧ 0 ≤ 90 ≤ 100 ∧ 0 ≤ 40 ≤ 100)
  ∧ ∃ overall,
      overall_rating [60; 90; 40] = Ok overall
      ∧ 60 `min` (90 `min` 40) ≤ overall ≤ 60 `max` (90 `max` 40).
Proof.
  split; [lia|]. apply (overall_rating_between 60 90 40); lia.
Defined.

Lemma failed_fetches_still_mail_witness :
  (∀ url, ∃ why, checked_get url = inl why)
  ∧ daily_task (json_payload marine_url) (json_payload weather_url)
      (json_payload metservice_url) (image_payload CAWTHRON_EYE_URL)
    = Ok ("Spearfishing update",
          String.concat newline
            ["Open-Meteo rating: 0"; "MetService rating: 0";
             "CawthronEye rating: 0"; "Overall rating: 0"; "Reasons:";
             "Failed to parse data: "
               +:+ exc_message (TypeError (OpSubscript (IKey "daily")) VNone);
             "No MetService data"])
  ∧ mails daily_task_io.1
    = option_list
        (outgoing "Spearfishing update"
           (String.concat newline
              ["Open-Meteo rating: 0"; "MetService rating: 0";
               "CawthronEye rating: 0"; "Overall rating: 0"; "Reasons:";
               "Failed to parse data: "
                 +:+ exc_message (TypeError (OpSubscript (IKey "daily")) VNone);
               "No MetService data"])).
Proof.
  assert (Hdown : ∀ url, ∃ why, checked_get url = inl why).
  { intros url. eexists. reflexivity. }
  split; [exact Hdown|].
  exact (failed_fetches_still_mail Hdown).
Defined.

(** The offline run in full: four failed requests, each printed, and
    one mail with the all-zero message. *)
Example daily_task_io_offline :
  requests daily_task_io.1
  = [marine_url; weather_url; metservice_url; CAWTHRON_EYE_URL]
  ∧ daily_task_io.2 = Done ()
  ∧ (mail_body <$> mails daily_task_io.1)
    = [String.concat newline
         ["Open-Meteo rating: 0"; "MetService rating: 0";
          "CawthronEye rating: 0"; "Overall rating: 0"; "Reasons:";
          "Failed to parse data: TypeError"; "No MetService data"]].
Proof. by vm_compute. Qed.
